(** * Attendance dashboard: the attendance engine and the sheet-query cache

    A shallow embedding of
    - [lib/transformGas.ts]  (row normalizer, [calcAttendance]),
    - the classifier and aggregation code of the dashboard page
      ([tokenizeCell], [isShouldAttendCell], [isAutoAttendCell],
      [isActualAttendCell], [statusFromRate], [refreshWorstAttendance],
      the per-row pass of [doQuery], [attWorst5], [attBest5]),
    - [lib/gasApi.ts]        ([gasQuerySheet] with its cache and in-flight map),
    and, around them,
    - the source-sheet choice, the range statistics, the query totals and the
      date texts of the dashboard page ([pickWorstSourceSheet],
      [computeForCols], [dateIndicesUpToEnd], the totals of [doQuery],
      [guessISOFromText], [fmtMDFromISO]),
    - the comparison of the attendance list page ([cmp]),
    - [gasVerifyLogin] of [lib/gasApi.ts],
    - [lib/export.ts]        ([toCsvCell], a line of [exportCsv], [escapeHtml]).

    Conventions of the embedding.
    - A JavaScript string is the list of its UTF-16 code units ([list N]).
    - [Set<string>] is a [gset]; an object used as a dictionary is a [gmap];
      a [Map] whose iteration order is observed is an association list.
    - Column indices and [Date.now()] readings are integers ([Z]).
    - The numbers that reach [rate] are two counts and their quotient; they
      are kept as exact rationals ([Q]).  Division in binary64 is correctly
      rounded and rounding is monotone, so for counts below 2^49 a quotient
      lies on the same side of 0.9 and of 0.75, and within the same bounds,
      as its rounding.
    - An optional field is an [option]; [undefined] and [null] are [None]. *)

From Stdlib Require Import QArith DecimalNat.
From stdpp Require Import gmap list strings sorting.

Local Open Scope N_scope.

(** ** JavaScript strings *)

Module Js.

Abbreviation jsstring := (list N).

(** UTF-8 bytes of a source literal to code points. *)
Fixpoint utf8_decode (bs : list N) : list N :=
  match bs with
  | [] => []
  | b0 :: r0 =>
    if b0 <? 0x80 then b0 :: utf8_decode r0
    else if b0 <? 0xE0 then
      match r0 with
      | b1 :: r1 =>
        N.lor (N.shiftl (N.land b0 0x1F) 6) (N.land b1 0x3F) :: utf8_decode r1
      | _ => []
      end
    else if b0 <? 0xF0 then
      match r0 with
      | b1 :: b2 :: r2 =>
        N.lor (N.shiftl (N.land b0 0x0F) 12)
          (N.lor (N.shiftl (N.land b1 0x3F) 6) (N.land b2 0x3F))
        :: utf8_decode r2
      | _ => []
      end
    else
      match r0 with
      | b1 :: b2 :: b3 :: r3 =>
        N.lor (N.shiftl (N.land b0 0x07) 18)
          (N.lor (N.shiftl (N.land b1 0x3F) 12)
            (N.lor (N.shiftl (N.land b2 0x3F) 6) (N.land b3 0x3F)))
        :: utf8_decode r3
      | _ => []
      end
  end.

(** A code point as one or two UTF-16 code units. *)
Definition utf16_units (cp : N) : jsstring :=
  if cp <? 0x10000 then [cp]
  else [0xD800 + N.shiftr (cp - 0x10000) 10; 0xDC00 + N.land (cp - 0x10000) 0x3FF].

(** The JavaScript string written by a source literal. *)
Definition js (s : string) : jsstring :=
  utf8_decode (Ascii.N_of_ascii <$> String.list_ascii_of_string s) ≫= utf16_units.
Arguments js s%_string.

(** [WhiteSpace] and [LineTerminator] of ECMAScript: what [trim] strips and
    what [\s] matches. *)
Definition is_space (c : N) : bool :=
  (9 <=? c) && (c <=? 13)
  || (c =? 0x20) || (c =? 0xA0) || (c =? 0x1680)
  || (0x2000 <=? c) && (c <=? 0x200A)
  || (c =? 0x2028) || (c =? 0x2029) || (c =? 0x202F) || (c =? 0x205F)
  || (c =? 0x3000) || (c =? 0xFEFF).

Fixpoint trimStart (s : jsstring) : jsstring :=
  match s with
  | c :: r => if is_space c then trimStart r else s
  | [] => []
  end.

Definition trimEnd (s : jsstring) : jsstring := reverse (trimStart (reverse s)).

Definition trim (s : jsstring) : jsstring := trimEnd (trimStart s).

(** Truthiness of a string: [Boolean(s)], [!s] negated. *)
Definition truthy (s : jsstring) : bool :=
  match s with [] => false | _ => true end.

(** [s.split(/[class]+/)] for a non-empty [s]: the pieces between maximal
    runs of separator units, with an empty first (last) piece when [s]
    starts (ends) with a separator. *)
Fixpoint split_runs (sep : N → bool) (cur : jsstring) (inrun : bool)
    (s : jsstring) : list jsstring :=
  match s with
  | [] => [reverse cur]
  | c :: r =>
    if sep c then
      if inrun then split_runs sep [] true r
      else reverse cur :: split_runs sep [] true r
    else split_runs sep (c :: cur) false r
  end.

Definition split (sep : N → bool) (s : jsstring) : list jsstring :=
  split_runs sep [] false s.

(** [a.startsWith(p)] and [s.includes(p)]. *)
Fixpoint startsWith (p s : jsstring) : bool :=
  match p, s with
  | [], _ => true
  | a :: p', b :: s' => (a =? b) && startsWith p' s'
  | _ :: _, [] => false
  end.

Fixpoint includes (p s : jsstring) : bool :=
  startsWith p s || match s with [] => false | _ :: r => includes p r end.

(** [String(n)] for a non-negative integer. *)
Fixpoint digits (u : Decimal.uint) : jsstring :=
  match u with
  | Decimal.Nil => []
  | Decimal.D0 r => 48 :: digits r
  | Decimal.D1 r => 49 :: digits r
  | Decimal.D2 r => 50 :: digits r
  | Decimal.D3 r => 51 :: digits r
  | Decimal.D4 r => 52 :: digits r
  | Decimal.D5 r => 53 :: digits r
  | Decimal.D6 r => 54 :: digits r
  | Decimal.D7 r => 55 :: digits r
  | Decimal.D8 r => 56 :: digits r
  | Decimal.D9 r => 57 :: digits r
  end.

Definition String_nat (n : nat) : jsstring := digits (Nat.to_uint n).

Definition String_int (z : Z) : jsstring :=
  match z with
  | Zneg p => 45 :: digits (Pos.to_uint p)
  | _ => digits (N.to_uint (Z.to_N z))
  end.

(** [a[i]] for a JavaScript number index that is an integer: [undefined]
    outside the array. *)
Definition index {A} (a : list A) (i : Z) : option A :=
  if (i <? 0)%Z then None else a !! Z.to_nat i.

End Js.
Import Js.

(** ** Data model *)

Inductive AttendanceStatus := normal | low | abnormal.

Record AttendanceSummary := {
  rate : Q;
  attended : nat;
  expected : nat;
  status : AttendanceStatus;
}.

(** [GasRow] of gasApi.ts. *)
Record GasRow := {
  row_v : list jsstring;
  row_bg : option (list jsstring);
  row_fc : option (list jsstring);
  row_att : option (list Z);
}.

(** [GasPayload] of gasApi.ts (the fields that are read). *)
Record GasPayload := {
  payload_headers : list jsstring;
  payload_headersISO : option (list jsstring);
  payload_rows : list GasRow;
  payload_dateCols : option (list Z);
  payload_error : option jsstring;
}.

(** [GasRecordRow] of transformGas.ts: the fixed fields of the type and, in
    [rec_cols], the index signature [[key: string]] that holds one entry per
    header.  A header spelled like one of the fixed fields would share its
    slot in the JavaScript object; the record keeps them apart. *)
Record GasRecordRow := {
  rec_id : jsstring;
  _attendance : option AttendanceSummary;
  _attendanceRate : option Q;
  _bg : option (list jsstring);
  _fc : option (list jsstring);
  _att : option (list Z);
  rec_cols : gmap jsstring jsstring;
}.

Record GasTransformOptions := {
  opt_disableAttendance : bool;
  opt_sheetName : option jsstring;
  opt_excludeForAttRate : option (list jsstring);
}.

(** ** Attendance classifier *)

(** [raw == null ? '' : String(raw)] for a cell that is a string or missing. *)
Definition String_cell (raw : option jsstring) : jsstring := default [] raw.

(** The character class of the tokenizer: 、 ， , ; ／ / and newline. *)
Definition is_separator (c : N) : bool :=
  (c =? 0x3001) || (c =? 0xFF0C) || (c =? 44) || (c =? 59)
  || (c =? 0xFF0F) || (c =? 47) || (c =? 10).

Definition tokenizeCell (raw : option jsstring) : list jsstring :=
  let s := trim (String_cell raw) in
  if negb (truthy s) then []
  else filter truthy (trim <$> split is_separator s).

(** 排除分母（應到）的項目 *)
Definition buildExcludeForAttRateSet : gset jsstring :=
  list_to_set
    [js "例"; js "例假"; js "例假日"; js "例休"; js "休"; js "休假";
     js "休假日"; js "國"; js "離"; js "調倉"; js "調任"; js "轉正"].

(** 排除缺勤（自動算實到）的項目 *)
Definition buildExcludeFromAbsSet : gset jsstring :=
  list_to_set
    [js "例"; js "例假"; js "例假日"; js "例休"; js "休"; js "休假";
     js "休假日"; js "國"; js "離"; js "調倉"; js "調任"; js "轉正";
     js "未"; js "特"].

(** [buildExcludeSet] of transformGas.ts: the base set and the caller's
    additions, trimmed, the empty ones left out. *)
Definition buildExcludeSet (list : option (list jsstring)) : gset jsstring :=
  let base : gset jsstring :=
    list_to_set
      [js "休"; js "休假"; js "公休"; js "特休"; js "病假"; js "事假";
       js "喪假"; js "婚假"; js "產假"; js "育嬰"; js "OFF"; js "off"; js "離"] in
  foldl (λ base t, let v := trim t in if truthy v then {[v]} ∪ base else base)
    base (default [] list).

Definition has (s : gset jsstring) (t : jsstring) : bool := bool_decide (t ∈ s).

Definition isShouldAttendCell (raw : option jsstring) (exclude : gset jsstring)
    : bool :=
  let s := trim (String_cell raw) in
  if negb (truthy s) then true
  else
    let toks := tokenizeCell (Some s) in
    negb (existsb (has exclude) toks).

(** [/^[A-Za-z0-9]+$/] and [/[\u4e00-\u9fff]/]. *)
Definition is_alnum (c : N) : bool :=
  (65 <=? c) && (c <=? 90) || (97 <=? c) && (c <=? 122)
  || (48 <=? c) && (c <=? 57).

Definition ALNUM_RE (s : jsstring) : bool := truthy s && forallb is_alnum s.

Definition HAS_CJK_RE (s : jsstring) : bool :=
  existsb (λ c, (0x4e00 <=? c) && (c <=? 0x9fff)) s.

Definition isAutoAttendCell (raw : option jsstring) (excludeAbs : gset jsstring)
    : bool :=
  let s := trim (String_cell raw) in
  if negb (truthy s) then false
  else
    let tokens := tokenizeCell (Some s) in
    if existsb (has excludeAbs) tokens then true
    else if (length tokens =? 1)%nat
            && ALNUM_RE (String_cell (tokens !! 0%nat))
            && negb (HAS_CJK_RE (String_cell (tokens !! 0%nat)))
    then true
    else false.

Definition statusFromRate (rate : Q) : AttendanceStatus :=
  if Qle_bool 0.9 rate then normal
  else if Qle_bool 0.75 rate then low
  else abnormal.

(** [Boolean(att[i])] for an array of numbers. *)
Definition truthy_num (x : option Z) : bool :=
  match x with
  | Some z => negb (z =? 0)%Z
  | None => false
  end.

Definition isActualAttendCell (colIndex : Z) (row : GasRecordRow)
    (cellValue : option jsstring) (excludeAbs : gset jsstring) : bool :=
  if isAutoAttendCell cellValue excludeAbs then true
  else
    match _att row with
    | Some att =>
      if (0 <? length att)%nat then truthy_num (index att colIndex) else false
    | None => false
    end.


(** ** Row normalizer (transformGas.ts) *)

(** General category Cf (Format) of Unicode 15, the table behind [\p{Cf}]
    in current engines. *)
Definition Cf_unicode (cp : N) : bool :=
  (cp =? 0xAD) || (0x600 <=? cp) && (cp <=? 0x605) || (cp =? 0x61C)
  || (cp =? 0x6DD) || (cp =? 0x70F) || (0x890 <=? cp) && (cp <=? 0x891)
  || (cp =? 0x8E2) || (cp =? 0x180E)
  || (0x200B <=? cp) && (cp <=? 0x200F) || (0x202A <=? cp) && (cp <=? 0x202E)
  || (0x2060 <=? cp) && (cp <=? 0x2064) || (0x2066 <=? cp) && (cp <=? 0x206F)
  || (cp =? 0xFEFF) || (0xFFF9 <=? cp) && (cp <=? 0xFFFB)
  || (cp =? 0x110BD) || (cp =? 0x110CD)
  || (0x13430 <=? cp) && (cp <=? 0x1343F)
  || (0x1BCA0 <=? cp) && (cp <=? 0x1BCA3)
  || (0x1D173 <=? cp) && (cp <=? 0x1D17A)
  || (cp =? 0xE0001) || (0xE0020 <=? cp) && (cp <=? 0xE007F).

Definition findNameIndex (headers : list jsstring) : Z :=
  let exact := [js "姓名"; js "Name"; js "name"; js "員工姓名"; js "中文姓名"] in
  let lower (c : N) := if (65 <=? c) && (c <=? 90) then c + 32 else c in
  let name_re (h : jsstring) := bool_decide (lower <$> h = js "name") in
  match list_find (λ x, truthy (trim x) && bool_decide (trim x ∈ exact)) headers with
  | Some (i, _) => Z.of_nat i
  | None =>
    match list_find
            (λ x, truthy (trim x)
                  && (includes (js "姓名") (trim x) || name_re (trim x)))
            headers with
    | Some (i, _) => Z.of_nat i
    | None => (-1)%Z
    end
  end.

Section Normalizer.

(** The engine's table for [\p{Cf}], on code points. *)
Variable Cf : N → bool.

(** [.replace(/[\u00A0\u200B-\u200F\u202A-\u202E\u2060\u2066-\u2069\uFEFF]/g, '')] *)
Definition is_invisible (c : N) : bool :=
  (c =? 0xA0) || (0x200B <=? c) && (c <=? 0x200F)
  || (0x202A <=? c) && (c <=? 0x202E) || (c =? 0x2060)
  || (0x2066 <=? c) && (c <=? 0x2069) || (c =? 0xFEFF).

(** [.replace(/\p{Cf}/gu, '')]: with the [u] flag a high surrogate followed
    by a low one is matched as the one code point they encode. *)
Fixpoint strip_Cf (s : jsstring) : jsstring :=
  match s with
  | [] => []
  | c :: r =>
    match r with
    | d :: r' =>
      if (0xD800 <=? c) && (c <=? 0xDBFF) && (0xDC00 <=? d) && (d <=? 0xDFFF)
      then
        if Cf (0x10000 + (c - 0xD800) * 0x400 + (d - 0xDC00))
        then strip_Cf r' else c :: d :: strip_Cf r'
      else if Cf c then strip_Cf r else c :: strip_Cf r
    | [] => if Cf c then [] else [c]
    end
  end.

Definition cleanForBlankCheck (v : option jsstring) : jsstring :=
  trim
    (filter (λ c, negb (is_space c))
       (strip_Cf (filter (λ c, negb (is_invisible c)) (String_cell v)))).

Definition isBlankRow (headers : list jsstring) (r : GasRow) : bool :=
  forallb (λ i, negb (truthy (cleanForBlankCheck (row_v r !! i))))
    (seq 0 (length headers)).

(** The running totals of the loop of [calcAttendance] after one column. *)
Definition calc_step (headers : list jsstring) (row : GasRow) (att : list Z)
    (exclude : gset jsstring) (acc : nat * nat) (ci : Z) : nat * nat :=
  let '(shouldDays, actDays) := acc in
  match index headers ci with
  | None => acc
  | Some hk =>
    if negb (truthy hk) || negb (truthy (trim hk)) then acc
    else if (ci <? 0)%Z || (Z.of_nat (length (row_v row)) <=? ci)%Z then acc
    else if isShouldAttendCell (index (row_v row) ci) exclude then
      (S shouldDays, if truthy_num (index att ci) then S actDays else actDays)
    else acc
  end.

(** [expected ? attended / expected : 0] *)
Definition rate_of (attended expected : nat) : Q :=
  if (expected =? 0)%nat then 0%Q
  else (inject_Z (Z.of_nat attended) / inject_Z (Z.of_nat expected))%Q.

Definition mkSummary (attended expected : nat) : AttendanceSummary :=
  let rate := rate_of attended expected in
  {| rate := rate; attended := attended; expected := expected;
     status := statusFromRate rate |}.

Definition calcAttendance (headers : list jsstring) (dateCols : option (list Z))
    (row : GasRow) (options : option GasTransformOptions)
    : option AttendanceSummary :=
  let sheetName := trim (String_cell (options ≫= opt_sheetName)) in
  if negb (includes (js "班表") sheetName) then None
  else if negb (0 <? length (default [] dateCols))%nat then None
  else if negb (0 <? length headers)%nat then None
  else
    match row_att row with
    | None => None
    | Some att =>
      if negb (0 <? length att)%nat then None
      else
        let exclude := buildExcludeSet (options ≫= opt_excludeForAttRate) in
        let '(shouldDays, actDays) :=
          foldl (calc_step headers row att exclude) (0, 0)%nat
            (default [] dateCols) in
        Some (mkSummary actDays shouldDays)
    end.

(** The object built for one kept row: one entry per header, the side
    channels, the attendance when it is computed, the mirrored name. *)
Definition header_key (headers : list jsstring) (i : nat) : jsstring :=
  let h := String_cell (headers !! i) in
  if truthy h then h else js "col_" ++ String_nat (i + 1).

Definition toRecord (headers : list jsstring) (nameIdx : Z)
    (dateCols : option (list Z)) (options : option GasTransformOptions)
    (idx : nat) (r : GasRow) : GasRecordRow :=
  let cols : gmap jsstring jsstring :=
    foldl (λ obj i, <[header_key headers i := String_cell (row_v r !! i)]> obj)
      ∅ (seq 0 (length headers)) in
  let att :=
    if negb (default false (opt_disableAttendance <$> options))
    then calcAttendance headers dateCols r options else None in
  let cols :=
    if (0 <=? nameIdx)%Z then
      match index (row_v r) nameIdx with
      | Some nm => <[js "姓名" := nm]> cols
      | None => cols
      end
    else cols in
  {| rec_id := js "gas_" ++ String_nat idx;
     _attendance := att;
     _attendanceRate := rate <$> att;
     _bg := row_bg r;
     _fc := row_fc r;
     _att := row_att r;
     rec_cols := cols |}.

Definition gasPayloadToRows (payload : GasPayload)
    (options : option GasTransformOptions)
    : list jsstring * list GasRecordRow :=
  let headers := payload_headers payload in
  let nameIdx := findNameIndex headers in
  let rows :=
    imap (toRecord headers nameIdx (payload_dateCols payload) options)
      (filter (λ r, negb (isBlankRow headers r)) (payload_rows payload)) in
  (headers, rows).

End Normalizer.

(** ** Aggregation (dashboard page) *)

Record AttItem := {
  item_id : jsstring;
  item_name : jsstring;
  summary : AttendanceSummary;
}.

(** [getNameFromRow] on a [GasRecordRow]: [r.name ?? r['姓名'] ?? ''],
    trimmed, and the placeholder when that is empty. *)
Definition getNameFromRow (r : GasRecordRow) : jsstring :=
  let v :=
    match rec_cols r !! js "name" with
    | Some x => x
    | None => String_cell (rec_cols r !! js "姓名")
    end in
  let t := trim v in
  if truthy t then t else js "（未命名）".

(** [/^\d{4}-\d{2}-\d{2}$/] *)
Definition ISO_DATE_RE (s : jsstring) : bool :=
  let d (c : N) := (48 <=? c) && (c <=? 57) in
  match s with
  | [y1; y2; y3; y4; h1; m1; m2; h2; d1; d2] =>
    d y1 && d y2 && d y3 && d y4 && (h1 =? 45) && d m1 && d m2 && (h2 =? 45)
    && d d1 && d d2
  | _ => false
  end.

(** [payload.dateCols], or the columns inferred from [headersISO] when that
    list is empty. *)
Definition effectiveDateCols (payload : GasPayload) : list Z :=
  let dateCols := default [] (payload_dateCols payload) in
  let headersISO := default [] (payload_headersISO payload) in
  if negb (0 <? length dateCols)%nat && (0 <? length headersISO)%nat then
    filter (λ i, (0 <=? i)%Z)
      (imap (λ i iso, if truthy iso && ISO_DATE_RE iso then Z.of_nat i else (-1)%Z)
         headersISO)
  else dateCols.

(** [String(headersISO?.[ci] || '').trim() || String(hk || '').trim() || String(ci)] *)
Definition dateIdentity (headersISO : list jsstring) (hk : jsstring) (ci : Z)
    : jsstring :=
  let a := trim (String_cell (index headersISO ci)) in
  if truthy a then a
  else
    let b := trim hk in
    if truthy b then b else String_int ci.

(** [byName]: a [Map] filled in first-seen order. *)
Fixpoint byName_push (nm : jsstring) (r : GasRecordRow)
    (m : list (jsstring * list GasRecordRow)) : list (jsstring * list GasRecordRow) :=
  match m with
  | [] => [(nm, [r])]
  | (k, rs) :: m' =>
    if decide (k = nm) then (k, rs ++ [r]) :: m' else (k, rs) :: byName_push nm r m'
  end.

Definition byName (gasRows : list GasRecordRow)
    : list (jsstring * list GasRecordRow) :=
  foldl (λ m r, let nm := getNameFromRow r in
                if truthy nm then byName_push nm r m else m) [] gasRows.

(** One (row, column) visit of the inner loop of [refreshWorstAttendance]:
    the two sets after it. *)
Definition worst_step (headers headersISO : list jsstring)
    (exclude excludeAbs : gset jsstring) (row : GasRecordRow)
    (acc : gset jsstring * gset jsstring) (ci : Z)
    : gset jsstring * gset jsstring :=
  let '(expectedSet, attendedSet) := acc in
  match index headers ci with
  | None => acc
  | Some hk =>
    if negb (truthy hk) || negb (truthy (trim hk)) then acc
    else
      let cellValue := rec_cols row !! hk in
      if negb (isShouldAttendCell cellValue exclude) then acc
      else
        let iso := dateIdentity headersISO hk ci in
        ({[iso]} ∪ expectedSet,
         if isActualAttendCell ci row cellValue excludeAbs
         then {[iso]} ∪ attendedSet else attendedSet)
  end.

Definition person_sets (headers headersISO : list jsstring) (cols : list Z)
    (personRows : list GasRecordRow) : gset jsstring * gset jsstring :=
  foldl
    (λ acc row,
       foldl (worst_step headers headersISO buildExcludeForAttRateSet
                buildExcludeFromAbsSet row) acc cols)
    (∅, ∅) personRows.

(** The entry pushed for one employee, none when [expected] is 0. *)
Definition person_item (headers headersISO : list jsstring) (cols : list Z)
    (entry : jsstring * list GasRecordRow) : list AttItem :=
  let '(nm, personRows) := entry in
  let '(expectedSet, attendedSet) :=
    person_sets headers headersISO cols personRows in
  let expected := size expectedSet in
  let attended := size attendedSet in
  if (expected =? 0)%nat then []
  else
    let rate := (inject_Z (Z.of_nat attended) / inject_Z (Z.of_nat expected))%Q in
    [{| item_id := js "att_" ++ nm; item_name := nm;
        summary := {| rate := rate; attended := attended; expected := expected;
                      status := statusFromRate rate |} |}].

(** [list.sort((a, b) => a.summary.rate - b.summary.rate)]: the stable sort
    by ascending rate. *)
Fixpoint sort_insert (x : AttItem) (l : list AttItem) : list AttItem :=
  match l with
  | [] => [x]
  | y :: l' =>
    if Qle_bool (rate (summary x)) (rate (summary y)) then x :: l
    else y :: sort_insert x l'
  end.

Definition sort_by_rate (l : list AttItem) : list AttItem :=
  foldr sort_insert [] l.

(** The order of the ranking. *)
Definition by_rate (a b : AttItem) : Prop :=
  (rate (summary a) <= rate (summary b))%Q.

(** [attWorst5] and [attBest5]. *)
Definition attWorst5 (attAll : list AttItem) : list AttItem := take 5 attAll.

Definition attBest5 (attAll : list AttItem) : list AttItem :=
  if negb (0 <? length attAll)%nat then []
  else reverse (drop (length attAll - 5) attAll).

(** The summary [makeRow] of mockApi.ts builds, [rounded] being the value
    of [Math.round(rng() * expected)]. *)
Definition makeRow_attendance (rounded : Z) : AttendanceSummary :=
  let expected := 26%nat in
  let attended := Z.to_nat (Z.max 0 (Z.min (Z.of_nat expected) rounded)) in
  let rate := (inject_Z (Z.of_nat attended) / inject_Z (Z.of_nat expected))%Q in
  {| rate := rate; attended := attended; expected := expected;
     status := statusFromRate rate |}.

(** [{ disableAttendance: true, sheetName: source }] *)
Definition worstOptions (source : jsstring) : option GasTransformOptions :=
  Some {| opt_disableAttendance := true; opt_sheetName := Some source;
          opt_excludeForAttRate := None |}.

Section Aggregator.

Variable Cf : N → bool.

(** [refreshWorstAttendance] from the resolved payload of the source sheet
    on: the list handed to [setAttAll]. *)
Definition refreshWorstAttendance (payload : GasPayload) (source : jsstring)
    : list AttItem :=
  let '(headers, gasRows) :=
    gasPayloadToRows Cf payload (worstOptions source) in
  let headersISO := default [] (payload_headersISO payload) in
  let cols := effectiveDateCols payload in
  if negb (0 <? length gasRows)%nat || negb (0 <? length cols)%nat then []
  else sort_by_rate (byName gasRows ≫= person_item headers headersISO cols).

(** The per-row pass of [doQuery]: a row without [_attendance] gets one. *)
Definition doQuery_step (headers : list jsstring) (row : GasRecordRow)
    (acc : nat * nat) (ci : Z) : nat * nat :=
  let '(expected, attended) := acc in
  match index headers ci with
  | None => acc
  | Some hk =>
    if negb (truthy hk) || negb (truthy (trim hk)) then acc
    else
      let cellValue := rec_cols row !! hk in
      if negb (isShouldAttendCell cellValue buildExcludeForAttRateSet) then acc
      else
        (S expected,
         if isActualAttendCell ci row cellValue buildExcludeFromAbsSet
         then S attended else attended)
  end.

Definition doQuery_row (headers : list jsstring) (dateCols : list Z)
    (isHoursPage isSchedulePage : bool) (row : GasRecordRow) : GasRecordRow :=
  match _attendance row with
  | Some _ => row
  | None =>
    let '(expected, attended) :=
      if negb isHoursPage && isSchedulePage && (0 <? length dateCols)%nat
      then foldl (doQuery_step headers row) (0, 0)%nat dateCols
      else (0, 0)%nat in
    let rate :=
      if (0 <? expected)%nat
      then (inject_Z (Z.of_nat attended) / inject_Z (Z.of_nat expected))%Q
      else 0%Q in
    {| rec_id := rec_id row;
       _attendance := Some {| rate := rate; attended := attended;
                              expected := expected;
                              status := statusFromRate rate |};
       _attendanceRate := Some rate;
       _bg := _bg row; _fc := _fc row; _att := _att row;
       rec_cols := rec_cols row |}
  end.

Definition doQuery_rows (payload : GasPayload) (page : jsstring)
    : list GasRecordRow :=
  let isHoursPage := bool_decide (trim page = js "出勤時數") in
  let dateCols := effectiveDateCols payload in
  let '(headers, gasRows) :=
    gasPayloadToRows Cf payload
      (Some {| opt_disableAttendance := isHoursPage; opt_sheetName := Some page;
               opt_excludeForAttRate := None |}) in
  let isSchedulePage := includes (js "班表") page in
  doQuery_row headers dateCols isHoursPage isSchedulePage <$> gasRows.

End Aggregator.

(** ** Sheet-query cache (gasApi.ts) *)

Module QueryCache.

Record CacheEntry := { ts : Z; value : GasPayload }.

(** What [toUrl] builds: the base and the query parameters it sets. *)
Record Url := { url_base : jsstring; url_query : list (jsstring * jsstring) }.

(** The module-level maps.  A promise in [QUERY_INFLIGHT] is named by the
    request it waits for. *)
Record Store := {
  QUERY_CACHE : gmap jsstring CacheEntry;
  QUERY_INFLIGHT : gmap jsstring Url;
}.

Definition QUERY_CACHE_MS : Z := 2 * 60000.

(** [getBaseUrl] on the value of [VITE_GAS_URL]. *)
Definition getBaseUrl (env : option jsstring) : option jsstring :=
  let s := trim (filter (λ c, negb (is_space c)) (String_cell env)) in
  if truthy s then Some s else None.

Definition toUrl (base : jsstring) (params : list (jsstring * option jsstring))
    : Url :=
  {| url_base := base;
     url_query :=
       omap (λ kv, match kv.2 with
                   | None => None
                   | Some v => let vv := trim v in
                               if truthy vv then Some (kv.1, vv) else None
                   end) params |}.

(** The composite key [`${base}|${warehouse}|${sheet}|${(name || '').trim()}`]. *)
Definition cacheKey (base warehouse sheet : jsstring) (name : option jsstring)
    : jsstring :=
  base ++ js "|" ++ warehouse ++ js "|" ++ sheet ++ js "|" ++ trim (String_cell name).

(** How the call leaves its synchronous part. *)
Inductive Entered :=
  | Throws (msg : jsstring)
  | Returns (hit : GasPayload)
  | ReturnsInflight (p : Url)
  | AwaitsFetch (ck : jsstring) (url : Url).

(** The requests a call sends. *)
Definition fetches (e : Entered) : list Url :=
  match e with
  | AwaitsFetch _ url => [url]
  | _ => []
  end.

(** [gasQuerySheet] up to its first suspension, [now] being the reading of
    [Date.now()]. *)
Definition gasQuerySheet_enter (env : option jsstring) (now : Z) (st : Store)
    (warehouse sheet : jsstring) (name : option jsstring) : Store * Entered :=
  match getBaseUrl env with
  | None => (st, Throws (js "尚未設定 VITE_GAS_URL"))
  | Some base =>
    let ck := cacheKey base warehouse sheet name in
    let fresh :=
      match QUERY_CACHE st !! ck with
      | Some hit => if (now - ts hit <? QUERY_CACHE_MS)%Z then Some hit else None
      | None => None
      end in
    match fresh with
    | Some hit => (st, Returns (value hit))
    | None =>
      match QUERY_INFLIGHT st !! ck with
      | Some inflight => (st, ReturnsInflight inflight)
      | None =>
        let url :=
          toUrl base
            [(js "mode", Some (js "api")); (js "wh", Some warehouse);
             (js "sheet", Some sheet); (js "name", Some (trim (String_cell name)));
             (js "t", Some (String_int now))] in
        ({| QUERY_CACHE := QUERY_CACHE st;
            QUERY_INFLIGHT := <[ck := url]> (QUERY_INFLIGHT st) |},
         AwaitsFetch ck url)
      end
    end
  end.

(** What [fetchJsonNoStore] settles to. *)
Inductive Fetched :=
  | Resolved (json : GasPayload)
  | Rejected (msg : jsstring).

(** The rest of the call once its request settles, at time [now]: the cache
    write of the inner function on success, then the [finally] block.  The
    two are one step here; a call that ran between them would find the fresh
    cache entry. *)
Definition gasQuerySheet_settle (ck : jsstring) (now : Z) (res : Fetched)
    (st : Store) : Store * (GasPayload + jsstring) :=
  let finally (cache : gmap jsstring CacheEntry) :=
    {| QUERY_CACHE := cache; QUERY_INFLIGHT := delete ck (QUERY_INFLIGHT st) |} in
  match res with
  | Rejected msg => (finally (QUERY_CACHE st), inr msg)
  | Resolved json =>
    if truthy (String_cell (payload_error json))
    then (finally (QUERY_CACHE st), inr (String_cell (payload_error json)))
    else
      (finally (<[ck := {| ts := now; value := json |}]> (QUERY_CACHE st)),
       inl json)
  end.



End QueryCache.

(** ** The summaries the program computes *)

(** An [AttendanceSummary] is computed by [calcAttendance] (directly or on a
    row emitted by the normalizer), by the per-row pass of [doQuery], by the
    per-employee aggregation of [refreshWorstAttendance], or by the mock
    data source. *)
Inductive Computed (Cf : N → bool) : AttendanceSummary → Prop :=
  | computed_calcAttendance headers dateCols row options s :
      calcAttendance headers dateCols row options = Some s → Computed Cf s
  | computed_normalizer payload options r s :
      r ∈ (gasPayloadToRows Cf payload options).2 →
      _attendance r = Some s → Computed Cf s
  | computed_doQuery payload page r s :
      r ∈ doQuery_rows Cf payload page →
      _attendance r = Some s → Computed Cf s
  | computed_refreshWorst payload source it :
      it ∈ refreshWorstAttendance Cf payload source →
      Computed Cf (summary it)
  | computed_makeRow rounded :
      Computed Cf (makeRow_attendance rounded).

(** The shape every computed summary has. *)
Definition well_formed (s : AttendanceSummary) : Prop :=
  (attended s ≤ expected s)%nat
  ∧ rate s = rate_of (attended s) (expected s)
  ∧ status s = statusFromRate (rate s).

(** ** Sample data *)

Definition gasRow (cells : list jsstring) (att : option (list Z)) : GasRow :=
  {| row_v := cells; row_bg := None; row_fc := None; row_att := att |}.

Definition recordRow (att : option (list Z)) : GasRecordRow :=
  {| rec_id := js "gas_0"; _attendance := None; _attendanceRate := None;
     _bg := None; _fc := None; _att := att; rec_cols := ∅ |}.

Definition sample_options : GasTransformOptions :=
  {| opt_disableAttendance := false; opt_sheetName := Some (js "班表");
     opt_excludeForAttRate := None |}.

Definition scheduleOptions : option GasTransformOptions := Some sample_options.

(** A schedule sheet with one employee on three days: at work with the
    backend flag set, an unmarked day without the flag, a day off. *)
Definition sample_headers : list jsstring :=
  [js "姓名"; js "1/1"; js "1/2"; js "1/3"].

Definition sample_row : GasRow :=
  gasRow [js "王小明"; js "9:00-18:00"; js ""; js "休"] (Some [0; 1; 0; 0]%Z).

Definition sample_summary : AttendanceSummary :=
  {| rate := 1 # 2; attended := 1; expected := 2; status := abnormal |}.

Definition sample_payload : GasPayload :=
  {| payload_headers := sample_headers;
     payload_headersISO :=
       Some [js ""; js "2024-01-01"; js "2024-01-02"; js "2024-01-03"];
     payload_rows := [sample_row];
     payload_dateCols := Some [1; 2; 3]%Z;
     payload_error := None |}.

Definition sample_record : GasRecordRow :=
  toRecord sample_headers 0 (Some [1; 2; 3]%Z) scheduleOptions 0 sample_row.


(** A schedule sheet whose row comes without the [att] array. *)
Definition unflagged_payload : GasPayload :=
  {| payload_headers := [js "姓名"; js "1/1"];
     payload_headersISO := None;
     payload_rows := [gasRow [js "王小明"; js "9:00-18:00"] None];
     payload_dateCols := Some [1]%Z;
     payload_error := None |}.

(** An employee on two rows that mark the same day. *)
Definition two_row_payload : GasPayload :=
  {| payload_headers := [js "姓名"; js "1/1"];
     payload_headersISO := Some [js ""; js "2024-01-01"];
     payload_rows := [gasRow [js "王小明"; js "A1"] None;
                      gasRow [js "王小明"; js "A1"] None];
     payload_dateCols := Some [1]%Z;
     payload_error := None |}.

Definition two_row_item : AttItem :=
  {| item_id := js "att_王小明"; item_name := js "王小明";
     summary := {| rate := 1 # 1; attended := 1; expected := 1;
                   status := normal |} |}.

(** Three employees on one day: one with a shift code, one with working
    hours and no backend flag, one on a day off. *)
Definition three_employee_payload : GasPayload :=
  {| payload_headers := [js "姓名"; js "1/1"];
     payload_headersISO := Some [js ""; js "2024-01-01"];
     payload_rows := [gasRow [js "王小明"; js "A1"] None;
                      gasRow [js "李大同"; js "9:00-18:00"] None;
                      gasRow [js "陳美玲"; js "休"] None];
     payload_dateCols := None;
     payload_error := None |}.



(** ** The per-employee date sets, stated on the data *)

(** The date identity of column [ci] with header text [hk]: the trimmed ISO
    header when that is not empty, else the trimmed header text when that is
    not empty, else the column index as a string. *)
Definition identity_of (headersISO : list jsstring) (hk : jsstring) (ci : Z)
    (x : jsstring) : Prop :=
  let iso := trim (String_cell (index headersISO ci)) in
  (iso ≠ [] ∧ x = iso)
  ∨ (iso = [] ∧ trim hk ≠ [] ∧ x = trim hk)
  ∨ (iso = [] ∧ trim hk = [] ∧ x = String_int ci).

(** Column [ci] of [row] contributes the identity [x] to the should-attend
    dates: its header is not blank and the cell under it is should-attend. *)
Definition should_at (headers headersISO : list jsstring) (row : GasRecordRow)
    (ci : Z) (x : jsstring) : Prop :=
  ∃ hk, index headers ci = Some hk ∧ trim hk ≠ []
        ∧ isShouldAttendCell (rec_cols row !! hk) buildExcludeForAttRateSet = true
        ∧ identity_of headersISO hk ci x.


(** ** The date sets as the specification words them *)



(** ** Sample cache states *)

Definition sample_env : option jsstring :=
  Some (js "https://script.google.com/macros/s/AKfycb/exec").

Definition sample_base : jsstring :=
  js "https://script.google.com/macros/s/AKfycb/exec".

Definition sample_key : jsstring :=
  js "https://script.google.com/macros/s/AKfycb/exec|TAO1|班表|".

Definition empty_store : QueryCache.Store :=
  {| QueryCache.QUERY_CACHE := ∅; QueryCache.QUERY_INFLIGHT := ∅ |}.

(** The store once a first call for the sample key has sent its request. *)
Definition pending_store : QueryCache.Store :=
  (QueryCache.gasQuerySheet_enter sample_env 0 empty_store (js "TAO1")
     (js "班表") None).1.

(** The store with the sample payload cached at time 0. *)
Definition cached_store : QueryCache.Store :=
  {| QueryCache.QUERY_CACHE :=
       {[ sample_key := {| QueryCache.ts := 0; QueryCache.value := sample_payload |} ]};
     QueryCache.QUERY_INFLIGHT := ∅ |}.

(** ** Header labels *)

(** The labels [findNameIndex] takes for the name column at once. *)
Definition exact_name_label (h : jsstring) : Prop :=
  trim h ∈ [js "姓名"; js "Name"; js "name"; js "員工姓名"; js "中文姓名"].

(** An ASCII capital as its small letter, every other unit unchanged. *)
Definition ascii_lower (c : N) : N :=
  if (65 <=? c) && (c <=? 90) then c + 32 else c.

(** The labels it falls back to: a non-blank label that contains 姓名 or
    reads "name" in any letter case. *)
Definition loose_name_label (h : jsstring) : Prop :=
  trim h ≠ []
  ∧ (includes (js "姓名") (trim h) = true ∨ ascii_lower <$> trim h = js "name").

(** [i] is the first position of [headers] whose label satisfies [P]. *)
Definition first_label (P : jsstring → Prop) (headers : list jsstring)
    (i : nat) : Prop :=
  ∃ h, headers !! i = Some h ∧ P h
       ∧ ∀ j h', headers !! j = Some h' → (j < i)%nat → ¬ P h'.

(** A header row in which a substring match comes before an exact label. *)
Definition loose_first_headers : list jsstring :=
  [js "部門"; js "員工姓名表"; js " Name "; js "姓名"].

(** ** Range statistics and query totals (dashboard page) *)

(** What [computeForCols] returns; [rate_percent] is [null] without
    expected days. *)
Record RangeStat := {
  shouldDays : nat;
  actDays : nat;
  absent : Z;
  rate_percent : option Q;
}.

(** [computeForCols] of [buildSingleAttStat]: every (row, column) visit does
    what a visit of the per-row pass of [doQuery] does, over all rows of the
    person. *)
Definition computeForCols (gasHeaders : list jsstring)
    (personRows : list GasRecordRow) (colIndices : list Z) : RangeStat :=
  let '(shouldDays, actDays) :=
    foldl (λ acc row, foldl (doQuery_step gasHeaders row) acc colIndices)
      (0, 0)%nat personRows in
  {| shouldDays := shouldDays;
     actDays := actDays;
     absent := Z.of_nat shouldDays - Z.of_nat actDays;
     rate_percent :=
       if (0 <? shouldDays)%nat
       then Some (inject_Z (Z.of_nat actDays) / inject_Z (Z.of_nat shouldDays)
                  * 100)%Q
       else None |}.



(** The running totals of [computeForCols], and the sum of two pairs of
    totals. *)
Definition range_counts (headers : list jsstring) (rows : list GasRecordRow)
    (cols : list Z) : nat * nat :=
  foldl (λ acc row, foldl (doQuery_step headers row) acc cols) (0, 0)%nat rows.

Definition pair_add (x y : nat * nat) : nat * nat :=
  ((x.1 + y.1)%nat, (x.2 + y.2)%nat).


(** A schedule sheet whose payload lists no date columns. *)
Definition inferred_payload : GasPayload :=
  {| payload_headers := sample_headers;
     payload_headersISO :=
       Some [js ""; js "2024-01-01"; js "1/2"; js "2024-01-03"];
     payload_rows := [sample_row];
     payload_dateCols := None;
     payload_error := None |}.

(** ** Login verification (gasApi.ts) *)

Module VerifyLogin.

(** How [gasVerifyLogin] leaves its synchronous part. *)
Inductive Entered :=
  | Throws (msg : jsstring)
  | ReturnsInflight (p : QueryCache.Url)
  | AwaitsFetch (ck : jsstring) (url : QueryCache.Url).

Definition fetches (e : Entered) : list QueryCache.Url :=
  match e with
  | AwaitsFetch _ url => [url]
  | _ => []
  end.




End VerifyLogin.

(** ** The source sheet of the ranking (dashboard page) *)

(** [list.find((p) => pred(String(p || '').trim())) || ''] *)
Definition pickFirst (pred : jsstring → bool) (list : list jsstring) : jsstring :=
  default [] (List.find (λ p, pred (trim p)) list).

(** [a || b] on strings. *)
Definition or_else (a b : jsstring) : jsstring := if truthy a then a else b.

(** [pickWorstSourceSheet] from the normalized warehouse key [wh] on. *)
Definition pickWorstSourceSheet (wh : jsstring) (pages : list jsstring)
    : jsstring :=
  if bool_decide (wh = js "TAO1") || bool_decide (wh = js "TA01") then
    or_else (pickFirst (includes (js "班表")) pages)
      (or_else (pickFirst (includes (js "出勤紀律")) pages)
         (or_else (pickFirst (includes (js "出勤記錄")) pages)
            (or_else (pickFirst (includes (js "出勤")) pages)
               (or_else (String_cell (head pages)) []))))
  else
    or_else (pickFirst (includes (js "班表")) pages)
      (or_else (pickFirst (includes (js "出勤記錄")) pages)
         (or_else (pickFirst (includes (js "出勤")) pages)
            (or_else (String_cell (head pages)) []))).

(** ** The date range of the single-employee statistics *)

(** An entry of [dateList]. *)
Record DateEntry := {
  date_ci : Z;
  date_iso : jsstring;
  date_label : jsstring;
}.

(** [d.iso || `idx_${d.ci}`] *)
Definition date_key (d : DateEntry) : jsstring :=
  or_else (date_iso d) (js "idx_" ++ String_int (date_ci d)).

(** [dateIndicesUpToEnd], [dateList] being the sorted list it reads. *)
Definition dateIndicesUpToEnd (dateList : list DateEntry) (gasDateCols : list Z)
    (attEndDate : jsstring) : list Z :=
  if negb (0 <? length dateList)%nat then gasDateCols
  else if negb (truthy attEndDate) then date_ci <$> dateList
  else
    match list_find (λ d, date_key d = attEndDate) dateList with
    | None => date_ci <$> dateList
    | Some (idx, _) => date_ci <$> take (idx + 1) dateList
    end.

Definition sample_dateList : list DateEntry :=
  [ {| date_ci := 1; date_iso := js "2024-01-01"; date_label := js "1/1" |};
    {| date_ci := 2; date_iso := js "2024-01-02"; date_label := js "1/2" |};
    {| date_ci := 3; date_iso := js "2024-01-03"; date_label := js "1/3" |} ].

(** ** Date texts (dashboard page) *)

(** [\d] *)
Definition is_digit (c : N) : bool := (48 <=? c) && (c <=? 57).

(** [[\/\-]] *)
Definition is_date_sep (c : N) : bool := (c =? 47) || (c =? 45).

(** The longest run of at most [max] digits at the start of [s], and the
    rest: what a greedy [\d{1,max}] consumes. *)
Fixpoint span_digits (max : nat) (s : jsstring) : jsstring * jsstring :=
  match max, s with
  | S k, c :: r =>
    if is_digit c
    then let '(d, rest) := span_digits k r in (c :: d, rest)
    else ([], s)
  | _, _ => ([], s)
  end.

(** [(`0${s}`).slice(-2)] *)
Definition pad2 (s : jsstring) : jsstring :=
  let t := 48 :: s in drop (length t - 2) t.

(** [/^(\d{4})[\/\-](\d{1,2})[\/\-](\d{1,2})$/]: the three groups. *)
Definition match_ymd (t : jsstring) : option (jsstring * jsstring * jsstring) :=
  let '(y, r1) := span_digits 4 t in
  if negb (length y =? 4)%nat then None
  else
    match r1 with
    | c1 :: r2 =>
      if negb (is_date_sep c1) then None
      else
        let '(mo, r3) := span_digits 2 r2 in
        if negb (0 <? length mo)%nat then None
        else
          match r3 with
          | c2 :: r4 =>
            if negb (is_date_sep c2) then None
            else
              let '(d, r5) := span_digits 2 r4 in
              if (0 <? length d)%nat && negb (truthy r5)
              then Some (y, mo, d) else None
          | [] => None
          end
    | [] => None
    end.

(** [/^(\d{1,2})[\/\-](\d{1,2})$/] *)
Definition match_md (t : jsstring) : option (jsstring * jsstring) :=
  let '(mo, r1) := span_digits 2 t in
  if negb (0 <? length mo)%nat then None
  else
    match r1 with
    | c :: r2 =>
      if negb (is_date_sep c) then None
      else
        let '(d, r3) := span_digits 2 r2 in
        if (0 <? length d)%nat && negb (truthy r3) then Some (mo, d) else None
    | [] => None
    end.

(** [/^(?:(\d{4})年)?\s*(\d{1,2})月\s*(\d{1,2})日$/]: the year group when it
    took part in the match, the month and the day.  A text that starts
    with four digits and 年 cannot match with the group left out, so the
    group is taken whenever it can be. *)
Definition match_cjk (t : jsstring)
    : option (option jsstring * jsstring * jsstring) :=
  let '(y, r1) := span_digits 4 t in
  let '(year, rest) :=
    match r1 with
    | c :: r2 =>
      if (length y =? 4)%nat && (c =? 0x5E74) then (Some y, r2) else (None, t)
    | [] => (None, t)
    end in
  let '(mo, r3) := span_digits 2 (trimStart rest) in
  if negb (0 <? length mo)%nat then None
  else
    match r3 with
    | c :: r4 =>
      if negb (c =? 0x6708) then None
      else
        let '(d, r5) := span_digits 2 (trimStart r4) in
        if negb (0 <? length d)%nat then None
        else
          match r5 with
          | [c'] => if c' =? 0x65E5 then Some (year, mo, d) else None
          | _ => None
          end
    | [] => None
    end.

(** [guessISOFromText], [year] being [String(new Date().getFullYear())]. *)
Definition guessISOFromText (year : jsstring) (s : jsstring) : jsstring :=
  let t := trim s in
  if negb (truthy t) then []
  else
    match match_ymd t with
    | Some (y, mo, d) => y ++ js "-" ++ pad2 mo ++ js "-" ++ pad2 d
    | None =>
      match match_md t with
      | Some (mo, d) => year ++ js "-" ++ pad2 mo ++ js "-" ++ pad2 d
      | None =>
        match match_cjk t with
        | Some (y, mo, d) =>
          default year y ++ js "-" ++ pad2 mo ++ js "-" ++ pad2 d
        | None => []
        end
      end
    end.

(** [Number(s)] for a string of digits. *)
Definition Number_digits (s : jsstring) : nat :=
  foldl (λ n c, 10 * n + N.to_nat (c - 48))%nat 0%nat s.

(** [fmtMDFromISO] *)
Definition fmtMDFromISO (iso : jsstring) : jsstring :=
  match iso with
  | [_; _; _; _; _; m1; m2; _; d1; d2] =>
    if ISO_DATE_RE iso
    then String_nat (Number_digits [m1; m2]) ++ js "/"
         ++ String_nat (Number_digits [d1; d2])
    else iso
  | _ => iso
  end.

(** ** Export (lib/export.ts) *)

(** [s.replace(/c/g, r)] for a pattern of one code unit [c] and a
    replacement text [r] without [$]. *)
Definition replace_unit (c : N) (r : jsstring) (s : jsstring) : jsstring :=
  s ≫= λ x, if x =? c then r else [x].

(** The class of [needsQuote]: line feed, carriage return, tab, comma and
    the double quote. *)
Definition csv_special (c : N) : bool :=
  (c =? 10) || (c =? 13) || (c =? 9) || (c =? 44) || (c =? 34).

(** [toCsvCell] on [String(v ?? '')]; 34 is the double quote. *)
Definition toCsvCell (v : option jsstring) : jsstring :=
  let s := String_cell v in
  let needsQuote := existsb csv_special s in
  let escaped := replace_unit 34 [34; 34] s in
  if needsQuote then [34] ++ escaped ++ [34] else escaped.

(** [a.join(sep)] *)
Fixpoint join (sep : jsstring) (a : list jsstring) : jsstring :=
  match a with
  | [] => []
  | [x] => x
  | x :: r => x ++ sep ++ join sep r
  end.

(** One line of [exportCsv]: [r.map(toCsvCell).join(',')]. *)
Definition csv_line (r : list (option jsstring)) : jsstring :=
  join (js ",") (toCsvCell <$> r).

(** [escapeHtml]: five replacements, one after the other. *)
Definition escapeHtml (s : jsstring) : jsstring :=
  replace_unit 39 (js "&#39;")
    (replace_unit 34 (js "&quot;")
       (replace_unit 62 (js "&gt;")
          (replace_unit 60 (js "&lt;")
             (replace_unit 38 (js "&amp;") s)))).

(** *** Reading a line of comma-separated values *)

(** The states of a reader of one record in the format of RFC 4180: at the
    start of a field, inside a bare field, inside a quoted field, and after
    a quote seen inside a quoted field. *)
Inductive CsvState := AtStart | InBare | InQuoted | AfterQuote.

(** The fields of a record; [cur] is the field read so far. *)
Fixpoint read_csv (st : CsvState) (cur : jsstring) (s : jsstring)
    : list jsstring :=
  match s with
  | [] => [cur]
  | c :: r =>
    match st with
    | AtStart =>
      if c =? 34 then read_csv InQuoted [] r
      else if c =? 44 then cur :: read_csv AtStart [] r
      else read_csv InBare [c] r
    | InBare =>
      if c =? 44 then cur :: read_csv AtStart [] r
      else read_csv InBare (cur ++ [c]) r
    | InQuoted =>
      if c =? 34 then read_csv AfterQuote cur r
      else read_csv InQuoted (cur ++ [c]) r
    | AfterQuote =>
      if c =? 34 then read_csv InQuoted (cur ++ [34]) r
      else if c =? 44 then cur :: read_csv AtStart [] r
      else read_csv InBare (cur ++ [c]) r
    end
  end.

(** The single-pass escaping of HTML text. *)
Definition html_entity (c : N) : jsstring :=
  if c =? 38 then js "&amp;"
  else if c =? 60 then js "&lt;"
  else if c =? 62 then js "&gt;"
  else if c =? 34 then js "&quot;"
  else if c =? 39 then js "&#39;"
  else [c].

(** ** The attendance list page *)

Inductive SortKey := key_status | key_name | key_rate | key_counts.

Inductive SortDir := asc | desc.

Definition statusRank (s : AttendanceStatus) : Z :=
  match s with
  | abnormal => 0
  | low => 1
  | normal => 2
  end.

Section AttendancePage.

(** [a.localeCompare(b, 'zh-Hant', { numeric: true, sensitivity: 'base' })] *)
Variable localeCompare : jsstring → jsstring → Z.

(** [cmp] of the sorted list, for each sort key. *)
Definition cmp (sortKey : SortKey) (a b : AttItem) : Q :=
  match sortKey with
  | key_status =>
    let v := (statusRank (status (summary a))
              - statusRank (status (summary b)))%Z in
    if negb (v =? 0)%Z then inject_Z v
    else (rate (summary a) - rate (summary b))%Q
  | key_name => inject_Z (localeCompare (item_name a) (item_name b))
  | key_counts =>
    let ar := rate_of (attended (summary a)) (expected (summary a)) in
    let br := rate_of (attended (summary b)) (expected (summary b)) in
    let v := (ar - br)%Q in
    if negb (Qeq_bool v 0) then v
    else if negb (attended (summary a) =? attended (summary b))%nat
    then inject_Z (Z.of_nat (attended (summary a))
                   - Z.of_nat (attended (summary b)))
    else inject_Z (Z.of_nat (expected (summary a))
                   - Z.of_nat (expected (summary b)))
  | key_rate => (rate (summary a) - rate (summary b))%Q
  end.

(** The comparison handed to [items.sort]. *)
Definition sort_cmp (sortKey : SortKey) (sortDir : SortDir) (a b : AttItem) : Q :=
  let v := cmp sortKey a b in
  match sortDir with
  | asc => v
  | desc => (- v)%Q
  end.

End AttendancePage.

(** * Properties *)

(** ** Strings *)

Lemma trimStart_idem s : trimStart (trimStart s) = trimStart s.
Proof.
  induction s as [|c r IH]; simpl; [done|].
  destruct (is_space c) eqn:E; [done|]. simpl. by rewrite E.
Qed.

Lemma trimStart_snoc l c :
  is_space c = false → ∃ l', trimStart (l ++ [c]) = l' ++ [c].
Proof.
  intros Hc. induction l as [|x l IH]; simpl.
  - rewrite Hc. by exists [].
  - destruct (is_space x); [done|]. by exists (x :: l).
Qed.

Lemma trimEnd_idem s : trimEnd (trimEnd s) = trimEnd s.
Proof.
  unfold trimEnd. by rewrite reverse_involutive, trimStart_idem.
Qed.

Lemma trimEnd_cons c r :
  is_space c = false → ∃ r', trimEnd (c :: r) = c :: r'.
Proof.
  intros Hc. unfold trimEnd. rewrite reverse_cons.
  destruct (trimStart_snoc (reverse r) c Hc) as [l' ->].
  exists (reverse l'). by rewrite reverse_app.
Qed.

Lemma trimStart_trimEnd s :
  trimStart (trimEnd (trimStart s)) = trimEnd (trimStart s).
Proof.
  induction s as [|c r IH]; [done|]. simpl.
  destruct (is_space c) eqn:E; [done|].
  destruct (trimEnd_cons c r E) as [r' ->]. simpl. by rewrite E.
Qed.

Lemma trim_idem s : trim (trim s) = trim s.
Proof. unfold trim. by rewrite trimStart_trimEnd, trimEnd_idem. Qed.

Lemma truthy_true s : truthy s = true ↔ s ≠ [].
Proof. by destruct s. Qed.

Lemma truthy_false s : truthy s = false ↔ s = [].
Proof. by destruct s. Qed.

(** The tokens of a cell are those of its trimmed text. *)
Lemma tokenizeCell_trim raw :
  tokenizeCell (Some (trim (String_cell raw))) = tokenizeCell raw.
Proof. unfold tokenizeCell. simpl. by rewrite trim_idem. Qed.

Lemma has_true (s : gset jsstring) t : has s t = true ↔ t ∈ s.
Proof. unfold has. apply bool_decide_eq_true. Qed.

Lemma existsb_has (s : gset jsstring) (l : list jsstring) :
  existsb (has s) l = true ↔ ∃ t, t ∈ l ∧ t ∈ s.
Proof.
  rewrite existsb_exists. split; intros (t & Ht & Hs); exists t.
  - by rewrite list_elem_of_In, <- has_true.
  - by rewrite <- list_elem_of_In, has_true.
Qed.

Lemma existsb_has_false (s : gset jsstring) (l : list jsstring) :
  existsb (has s) l = false ↔ ∀ t, t ∈ l → t ∉ s.
Proof.
  rewrite <- not_true_iff_false, existsb_has. split.
  - intros H t Ht Hs. apply H. eauto.
  - intros H (t & Ht & Hs). exact (H t Ht Hs).
Qed.

(** ** Attendance classifier *)

Lemma isShouldAttendCell_empty raw exclude :
  trim (String_cell raw) = [] → isShouldAttendCell raw exclude = true.
Proof. unfold isShouldAttendCell. simpl. by intros ->. Qed.

Lemma isShouldAttendCell_tokens raw exclude :
  isShouldAttendCell raw exclude = true ↔
  ∀ t, t ∈ tokenizeCell raw → t ∉ exclude.
Proof.
  unfold isShouldAttendCell. simpl.
  destruct (truthy (trim (String_cell raw))) eqn:E; simpl.
  - rewrite tokenizeCell_trim, negb_true_iff. apply existsb_has_false.
  - unfold tokenizeCell. simpl. rewrite E. simpl. split; [|done].
    intros _ t Ht. by apply elem_of_nil in Ht.
Qed.

(** C1, as the code has it: an empty cell is should-attend, and a non-empty
    cell is should-attend exactly when none of its tokens is in the exclusion
    set.  The cell 休 is not should-attend, and neither is 休/加班, one of
    whose tokens is excluded; this holds with the set of the dashboard page
    and with the base set of the normalizer. *)
Theorem isShouldAttendCell_no_token_excluded :
  (∀ raw exclude,
     trim (String_cell raw) = [] → isShouldAttendCell raw exclude = true)
  ∧ (∀ raw exclude,
       trim (String_cell raw) ≠ [] →
       (isShouldAttendCell raw exclude = true ↔
        ∀ t, t ∈ tokenizeCell raw → t ∉ exclude))
  ∧ isShouldAttendCell (Some (js "休")) buildExcludeForAttRateSet = false
  ∧ isShouldAttendCell (Some (js "休/加班")) buildExcludeForAttRateSet = false
  ∧ isShouldAttendCell (Some (js "休")) (buildExcludeSet None) = false
  ∧ isShouldAttendCell (Some (js "休/加班")) (buildExcludeSet None) = false.
Proof.
  split; [exact isShouldAttendCell_empty|].
  split; [intros raw exclude _; apply isShouldAttendCell_tokens|].
  repeat apply conj; vm_compute; reflexivity.
Qed.

(** C1 as stated fails at 休/加班: the token 加班 is not excluded, yet the
    cell is not should-attend. *)
Lemma isShouldAttendCell_some_token_kept_refuted :
  ¬ (isShouldAttendCell (Some (js "休/加班")) buildExcludeForAttRateSet = true ↔
     ∃ t, t ∈ tokenizeCell (Some (js "休/加班"))
          ∧ t ∉ buildExcludeForAttRateSet).
Proof.
  intros [_ H].
  assert (isShouldAttendCell (Some (js "休/加班")) buildExcludeForAttRateSet
          = true) as Habs; [|by vm_compute in Habs].
  apply H. exists (js "加班"). split.
  - change (tokenizeCell (Some (js "休/加班"))) with [js "休"; js "加班"].
    set_solver.
  - apply (bool_decide_eq_false_1 (js "加班" ∈ buildExcludeForAttRateSet)).
    vm_compute. reflexivity.
Qed.

(** What the two patterns of [isAutoAttendCell] test. *)
Lemma ALNUM_RE_spec t :
  ALNUM_RE t = true ↔
  t ≠ [] ∧ Forall (λ c, 65 ≤ c ≤ 90 ∨ 97 ≤ c ≤ 122 ∨ 48 ≤ c ≤ 57) t.
Proof.
  unfold ALNUM_RE. rewrite andb_true_iff, truthy_true, forallb_forall, Forall_forall.
  apply and_iff_compat_l.
  split; intros H c Hc.
  - apply list_elem_of_In, H in Hc. unfold is_alnum in Hc.
    rewrite !orb_true_iff, !andb_true_iff, !N.leb_le in Hc. tauto.
  - apply list_elem_of_In, H in Hc. unfold is_alnum.
    rewrite !orb_true_iff, !andb_true_iff, !N.leb_le. tauto.
Qed.

Lemma HAS_CJK_RE_spec t :
  HAS_CJK_RE t = false ↔ Forall (λ c, ¬ (0x4e00 ≤ c ≤ 0x9fff)) t.
Proof.
  unfold HAS_CJK_RE. rewrite <- not_true_iff_false, existsb_exists, Forall_forall.
  split.
  - intros H c Hc Hr. apply H. exists c. split; [by apply list_elem_of_In|].
    rewrite andb_true_iff, !N.leb_le. tauto.
  - intros H (c & Hc & Hr). apply (H c); [by apply list_elem_of_In|].
    rewrite andb_true_iff, !N.leb_le in Hr. tauto.
Qed.

Lemma isAutoAttendCell_tokens raw excludeAbs :
  isAutoAttendCell raw excludeAbs = true ↔
  (∃ t, t ∈ tokenizeCell raw ∧ t ∈ excludeAbs)
  ∨ (∃ t, tokenizeCell raw = [t] ∧ ALNUM_RE t = true ∧ HAS_CJK_RE t = false).
Proof.
  unfold isAutoAttendCell. simpl.
  destruct (truthy (trim (String_cell raw))) eqn:E; simpl.
  - rewrite tokenizeCell_trim.
    destruct (existsb (has excludeAbs) (tokenizeCell raw)) eqn:Ex.
    + apply existsb_has in Ex. tauto.
    + rewrite existsb_has_false in Ex.
      destruct (tokenizeCell raw) as [|t [|t' l]] eqn:Et; simpl.
      * split; [done|]. intros [(t & Ht & _)|(t & Ht & _)]; [|done].
        by apply elem_of_nil in Ht.
      * destruct (ALNUM_RE t) eqn:Ea, (HAS_CJK_RE t) eqn:Ec; simpl;
          (split; [try done; intros _; right; by exists t|]);
          intros [(u & Hu & Hin)|(u & Hu & Ha & Hc)]; try done;
          try (by apply Ex in Hu); congruence.
      * split; [done|].
        intros [(u & Hu & Hin)|(u & Hu & _)]; [by apply Ex in Hu|done].
  - unfold tokenizeCell. simpl. rewrite E. simpl. split; [done|].
    intros [(t & Ht & _)|(t & Ht & _)]; [by apply elem_of_nil in Ht|done].
Qed.

(** C4: the auto-attend test passes exactly when a token of the cell is in
    the absence-exclusion set, or the cell has a single token, made of ASCII
    letters and digits only (hence without CJK characters).  The cell A1
    counts as attended whatever the backend flags are, and an empty cell is
    not auto-attend. *)
Theorem isAutoAttendCell_token_or_code :
  (∀ raw excludeAbs,
     isAutoAttendCell raw excludeAbs = true ↔
     (∃ t, t ∈ tokenizeCell raw ∧ t ∈ excludeAbs)
     ∨ (∃ t, tokenizeCell raw = [t]
             ∧ (t ≠ [] ∧ Forall (λ c, 65 ≤ c ≤ 90 ∨ 97 ≤ c ≤ 122 ∨ 48 ≤ c ≤ 57) t)
             ∧ Forall (λ c, ¬ (0x4e00 ≤ c ≤ 0x9fff)) t))
  ∧ isAutoAttendCell (Some (js "A1")) buildExcludeFromAbsSet = true
  ∧ (∀ colIndex row,
       isActualAttendCell colIndex row (Some (js "A1")) buildExcludeFromAbsSet
       = true)
  ∧ (∀ raw excludeAbs,
       trim (String_cell raw) = [] → isAutoAttendCell raw excludeAbs = false).
Proof.
  repeat apply conj.
  - intros raw excludeAbs. rewrite isAutoAttendCell_tokens.
    split; (intros [?|(t & ? & ? & ?)]; [by left|right]); exists t.
    + by rewrite <- ALNUM_RE_spec, <- HAS_CJK_RE_spec.
    + by rewrite ALNUM_RE_spec, HAS_CJK_RE_spec.
  - vm_compute. reflexivity.
  - intros colIndex row. unfold isActualAttendCell.
    replace (isAutoAttendCell (Some (js "A1")) buildExcludeFromAbsSet) with true;
      [done|]. vm_compute. reflexivity.
  - intros raw excludeAbs H. unfold isAutoAttendCell. simpl. by rewrite H.
Qed.

Lemma truthy_num_spec x : truthy_num x = true ↔ ∃ z, x = Some z ∧ z ≠ 0%Z.
Proof.
  destruct x as [z|]; simpl.
  - rewrite negb_true_iff, Z.eqb_neq. split.
    + intros H. by exists z.
    + by intros (z' & [= <-] & H).
  - split; [done|]. by intros (z & ? & _).
Qed.

(** C3: a cell is attended exactly when the auto-attend test passes, or else
    when the row carries a non-empty [_att] array whose entry at the column
    is truthy; without the array only the auto-attend test counts.  The cell
    9:00-18:00 is attended with flag 1 and not attended with flag 0 or
    without the array. *)
Theorem isActualAttendCell_auto_or_flag :
  (∀ colIndex row cellValue excludeAbs,
     isActualAttendCell colIndex row cellValue excludeAbs = true ↔
     isAutoAttendCell cellValue excludeAbs = true
     ∨ (isAutoAttendCell cellValue excludeAbs = false
        ∧ ∃ att z, _att row = Some att ∧ att ≠ []
                   ∧ index att colIndex = Some z ∧ z ≠ 0%Z))
  ∧ (∀ colIndex row cellValue excludeAbs,
       _att row = None →
       isActualAttendCell colIndex row cellValue excludeAbs
       = isAutoAttendCell cellValue excludeAbs)
  ∧ isAutoAttendCell (Some (js "9:00-18:00")) buildExcludeFromAbsSet = false
  ∧ isActualAttendCell 1 (recordRow (Some [0; 1]%Z)) (Some (js "9:00-18:00"))
      buildExcludeFromAbsSet = true
  ∧ isActualAttendCell 1 (recordRow (Some [1; 0]%Z)) (Some (js "9:00-18:00"))
      buildExcludeFromAbsSet = false
  ∧ isActualAttendCell 1 (recordRow None) (Some (js "9:00-18:00"))
      buildExcludeFromAbsSet = false.
Proof.
  split; [|split; [|repeat apply conj; vm_compute; reflexivity]].
  - intros colIndex row cellValue excludeAbs. unfold isActualAttendCell.
    destruct (isAutoAttendCell cellValue excludeAbs); [tauto|].
    destruct (_att row) as [att|].
    + destruct att as [|a att]; simpl.
      * split; [done|]. intros [?|[_ (att & z & ? & ? & _)]]; [done|]. congruence.
      * rewrite truthy_num_spec. split.
        -- intros (z & Hz & Hnz). right. split; [done|]. by exists (a :: att), z.
        -- intros [?|[_ (att' & z & Ha & _ & Hz & Hnz)]]; [done|].
           injection Ha as <-. by exists z.
    + split; [done|]. intros [?|[_ (att & z & ? & _)]]; done.
  - intros colIndex row cellValue excludeAbs H. unfold isActualAttendCell.
    rewrite H. by destruct (isAutoAttendCell cellValue excludeAbs).
Qed.

(** ** Status and rate of the computed summaries *)

Lemma statusFromRate_spec (r : Q) :
  (statusFromRate r = normal ↔ (0.9 <= r)%Q)
  ∧ (statusFromRate r = low ↔ (0.75 <= r)%Q ∧ (r < 0.9)%Q)
  ∧ (statusFromRate r = abnormal ↔ (r < 0.75)%Q).
Proof.
  unfold statusFromRate.
  destruct (Qle_bool 0.9 r) eqn:E1.
  - apply Qle_bool_iff in E1. repeat split; try done.
    + intros [_ H]. by apply Qlt_not_le in H.
    + intros H. exfalso. apply (Qlt_not_le _ _ H).
      apply Qle_trans with (y := 0.9%Q); [by vm_compute|done].
  - assert (r < 0.9)%Q as H1.
    { apply Qnot_le_lt. intros H. apply Qle_bool_iff in H. congruence. }
    destruct (Qle_bool 0.75 r) eqn:E2.
    + apply Qle_bool_iff in E2. repeat split; try done.
      * intros H. by apply Qlt_not_le in H1.
      * intros H. by apply Qlt_not_le in H.
    + assert (r < 0.75)%Q as H2.
      { apply Qnot_le_lt. intros H. apply Qle_bool_iff in H. congruence. }
      repeat split; try done.
      * intros H. by apply Qlt_not_le in H1.
      * intros [H _]. by apply Qlt_not_le in H2.
Qed.

Lemma rate_of_bounds (a e : nat) :
  (a ≤ e)%nat → (0 <= rate_of a e)%Q ∧ (rate_of a e <= 1)%Q.
Proof.
  intros Hae. unfold rate_of. destruct (e =? 0)%nat eqn:E.
  - split; by vm_compute.
  - apply Nat.eqb_neq in E.
    assert (0 < inject_Z (Z.of_nat e))%Q as He.
    { change 0%Q with (inject_Z 0). rewrite <- Zlt_Qlt. lia. }
    split.
    + apply Qle_shift_div_l; [done|]. rewrite Qmult_0_l.
      change 0%Q with (inject_Z 0). rewrite <- Zle_Qle. lia.
    + apply Qle_shift_div_r; [done|]. rewrite Qmult_1_l.
      rewrite <- Zle_Qle. lia.
Qed.

Lemma mkSummary_well_formed a e : (a ≤ e)%nat → well_formed (mkSummary a e).
Proof. by intros H. Qed.

Section Summaries.

Variable Cf : N → bool.

Lemma calc_step_le headers row att exclude acc ci :
  (acc.2 ≤ acc.1)%nat →
  ((calc_step headers row att exclude acc ci).2
   ≤ (calc_step headers row att exclude acc ci).1)%nat.
Proof.
  destruct acc as [s a]. unfold calc_step. simpl. intros H.
  repeat (case_match; simpl; try lia).
Qed.

Lemma calcAttendance_well_formed headers dateCols row options s :
  calcAttendance headers dateCols row options = Some s → well_formed s.
Proof.
  unfold calcAttendance. intros H.
  repeat (case_match; try done). simplify_eq.
  apply mkSummary_well_formed.
  match goal with
  | E : foldl ?f ?a ?l = (?x, ?y) |- _ =>
    assert ((foldl f a l).2 ≤ (foldl f a l).1)%nat as Hle;
      [|by rewrite E in Hle]
  end.
  generalize (default [] dateCols). intros cols.
  assert (((0, 0)%nat : nat * nat).2 ≤ ((0, 0)%nat : nat * nat).1)%nat as Hinit
    by done.
  revert Hinit. generalize ((0, 0)%nat : nat * nat).
  induction cols as [|ci cols IH]; intros acc Hacc; simpl; [done|].
  apply IH. by apply calc_step_le.
Qed.

Lemma toRecord_attendance headers nameIdx dateCols options idx r s :
  _attendance (toRecord headers nameIdx dateCols options idx r) = Some s →
  calcAttendance headers dateCols r options = Some s.
Proof. unfold toRecord. simpl. by case_match. Qed.

Lemma normalizer_well_formed payload options r s :
  r ∈ (gasPayloadToRows Cf payload options).2 →
  _attendance r = Some s → well_formed s.
Proof.
  unfold gasPayloadToRows. simpl.
  intros (idx & row & -> & _)%elem_of_lookup_imap Hs.
  apply toRecord_attendance in Hs. by eapply calcAttendance_well_formed.
Qed.

Lemma doQuery_step_le headers row acc ci :
  (acc.2 ≤ acc.1)%nat →
  ((doQuery_step headers row acc ci).2 ≤ (doQuery_step headers row acc ci).1)%nat.
Proof.
  destruct acc as [s a]. unfold doQuery_step. simpl. intros H.
  repeat (case_match; simpl; try lia).
Qed.

Lemma doQuery_fold_le headers row l acc :
  (acc.2 ≤ acc.1)%nat →
  ((foldl (doQuery_step headers row) acc l).2
   ≤ (foldl (doQuery_step headers row) acc l).1)%nat.
Proof.
  revert acc. induction l as [|ci l IH]; intros acc Hacc; simpl; [done|].
  apply IH. by apply doQuery_step_le.
Qed.

Lemma doQuery_row_well_formed headers dateCols isHoursPage isSchedulePage row s :
  (∀ s0, _attendance row = Some s0 → well_formed s0) →
  _attendance (doQuery_row headers dateCols isHoursPage isSchedulePage row)
  = Some s →
  well_formed s.
Proof.
  intros Hrow. unfold doQuery_row.
  destruct (_attendance row) as [s0|] eqn:E0; [intros H; apply Hrow; congruence|].
  set (acc := if negb isHoursPage && isSchedulePage && (0 <? length dateCols)%nat
              then foldl (doQuery_step headers row) (0, 0)%nat dateCols
              else (0, 0)%nat).
  assert (acc.2 ≤ acc.1)%nat as Hle.
  { subst acc. case_match; [|done]. by apply doQuery_fold_le. }
  destruct acc as [e a]. simpl in Hle. simpl. intros [= <-].
  unfold well_formed, rate_of. simpl. split; [done|]. split; [|done].
  destruct e; done.
Qed.

Lemma worst_step_subseteq headers headersISO exclude excludeAbs row acc ci :
  acc.2 ⊆ acc.1 →
  (worst_step headers headersISO exclude excludeAbs row acc ci).2
  ⊆ (worst_step headers headersISO exclude excludeAbs row acc ci).1.
Proof.
  destruct acc as [es ats]. unfold worst_step. simpl. intros H.
  destruct (index headers ci) as [hk|]; [|done].
  destruct (negb (truthy hk) || negb (truthy (trim hk))); [done|].
  destruct (negb (isShouldAttendCell (rec_cols row !! hk) exclude)); [done|].
  destruct (isActualAttendCell ci row (rec_cols row !! hk) excludeAbs); simpl.
  - by apply union_mono_l.
  - by apply union_subseteq_r'.
Qed.

Lemma worst_fold_subseteq headers headersISO exclude excludeAbs row cols acc :
  acc.2 ⊆ acc.1 →
  (foldl (worst_step headers headersISO exclude excludeAbs row) acc cols).2
  ⊆ (foldl (worst_step headers headersISO exclude excludeAbs row) acc cols).1.
Proof.
  revert acc. induction cols as [|ci cols IH]; intros acc Hacc; simpl; [done|].
  apply IH. by apply worst_step_subseteq.
Qed.

Lemma person_sets_subseteq headers headersISO cols personRows :
  (person_sets headers headersISO cols personRows).2
  ⊆ (person_sets headers headersISO cols personRows).1.
Proof.
  unfold person_sets.
  cut (∀ acc : gset jsstring * gset jsstring,
         acc.2 ⊆ acc.1 →
         (foldl (λ acc row,
                   foldl (worst_step headers headersISO buildExcludeForAttRateSet
                            buildExcludeFromAbsSet row) acc cols)
            acc personRows).2
         ⊆ (foldl (λ acc row,
                     foldl (worst_step headers headersISO
                              buildExcludeForAttRateSet
                              buildExcludeFromAbsSet row) acc cols)
              acc personRows).1).
  { intros Hcut. by apply Hcut. }
  induction personRows as [|row rows IH]; intros acc Hacc; simpl; [done|].
  apply IH. by apply worst_fold_subseteq.
Qed.

Lemma person_item_elem headers headersISO cols nm personRows it :
  it ∈ person_item headers headersISO cols (nm, personRows) →
  item_name it = nm
  ∧ expected (summary it)
    = size (person_sets headers headersISO cols personRows).1
  ∧ attended (summary it)
    = size (person_sets headers headersISO cols personRows).2
  ∧ expected (summary it) ≠ 0%nat
  ∧ rate (summary it) = rate_of (attended (summary it)) (expected (summary it))
  ∧ status (summary it) = statusFromRate (rate (summary it)).
Proof.
  unfold person_item.
  destruct (person_sets headers headersISO cols personRows) as [es ats].
  simpl. destruct (size es =? 0)%nat eqn:E.
  - by intros ?%elem_of_nil.
  - intros ->%list_elem_of_singleton. simpl. unfold rate_of. rewrite E.
    by apply Nat.eqb_neq in E.
Qed.

Lemma person_item_well_formed headers headersISO cols entry it :
  it ∈ person_item headers headersISO cols entry →
  well_formed (summary it) ∧ expected (summary it) ≠ 0%nat
  ∧ item_name it = entry.1.
Proof.
  destruct entry as [nm personRows].
  intros (Hn & He & Ha & Hz & Hr & Hs)%person_item_elem.
  split; [|done]. split; [|done]. rewrite He, Ha.
  apply subseteq_size, person_sets_subseteq.
Qed.

Lemma sort_insert_perm x l : sort_insert x l ≡ₚ x :: l.
Proof.
  induction l as [|y l IH]; simpl; [done|].
  case_match; [done|]. rewrite IH. apply Permutation_swap.
Qed.

Lemma sort_by_rate_perm l : sort_by_rate l ≡ₚ l.
Proof.
  induction l as [|x l IH]; simpl; [done|].
  rewrite sort_insert_perm. by rewrite IH.
Qed.

(** The items of the ranking are the entries pushed for the groups of
    [byName]. *)
Lemma refreshWorstAttendance_items payload source it :
  it ∈ refreshWorstAttendance Cf payload source →
  ∃ entry,
    entry ∈ byName (gasPayloadToRows Cf payload (worstOptions source)).2
    ∧ it ∈ person_item (payload_headers payload)
             (default [] (payload_headersISO payload))
             (effectiveDateCols payload) entry.
Proof.
  unfold refreshWorstAttendance, gasPayloadToRows. simpl.
  case_match; [by intros ?%elem_of_nil|].
  rewrite sort_by_rate_perm. intros (entry & Hit & He)%list_elem_of_bind.
  by exists entry.
Qed.

Lemma refreshWorstAttendance_well_formed payload source it :
  it ∈ refreshWorstAttendance Cf payload source →
  well_formed (summary it) ∧ expected (summary it) ≠ 0%nat.
Proof.
  intros (entry & _ & Hit)%refreshWorstAttendance_items.
  apply person_item_well_formed in Hit. tauto.
Qed.

Lemma Computed_well_formed s : Computed Cf s → well_formed s.
Proof.
  intros [headers dateCols row options s' H|payload options r s' Hr H
         |payload page r s' Hr H|payload source it H|rounded].
  - by eapply calcAttendance_well_formed.
  - by eapply normalizer_well_formed.
  - unfold doQuery_rows in Hr.
    destruct (gasPayloadToRows Cf payload _) as [headers gasRows] eqn:E.
    apply list_elem_of_fmap in Hr as (r0 & -> & Hr0).
    eapply doQuery_row_well_formed; [|exact H].
    intros s0 Hs0. eapply normalizer_well_formed; [|exact Hs0].
    rewrite E. exact Hr0.
  - by apply refreshWorstAttendance_well_formed in H as [? _].
  - unfold well_formed, makeRow_attendance. simpl. split; [lia|done].
Qed.

(** C5: the status of every computed summary is normal exactly when its rate
    is at least 0.90, low exactly when the rate is at least 0.75 and below
    0.90, and abnormal exactly when the rate is below 0.75. *)
Theorem status_matches_rate s :
  Computed Cf s →
  (status s = normal ↔ (0.9 <= rate s)%Q)
  ∧ (status s = low ↔ (0.75 <= rate s)%Q ∧ (rate s < 0.9)%Q)
  ∧ (status s = abnormal ↔ (rate s < 0.75)%Q).
Proof.
  intros (_ & _ & ->)%Computed_well_formed. apply statusFromRate_spec.
Qed.

(** C6: every computed summary has rate = attended / expected when expected
    is positive and rate = 0 when expected is 0, attended at most expected,
    and a rate between 0 and 1. *)
Theorem rate_is_bounded_quotient s :
  Computed Cf s →
  ((0 < expected s)%nat →
   rate s = (inject_Z (Z.of_nat (attended s))
             / inject_Z (Z.of_nat (expected s)))%Q)
  ∧ (expected s = 0%nat → rate s = 0%Q)
  ∧ (attended s ≤ expected s)%nat
  ∧ (0 <= rate s)%Q ∧ (rate s <= 1)%Q.
Proof.
  intros (Hle & Hr & _)%Computed_well_formed. rewrite Hr.
  split; [|split; [|split; [done|by apply rate_of_bounds]]].
  - intros H. unfold rate_of. destruct (expected s); [lia|done].
  - intros ->. done.
Qed.

End Summaries.

(** ** Row normalizer *)

Lemma startsWith_spec p s : startsWith p s = true ↔ ∃ b, s = p ++ b.
Proof.
  revert s. induction p as [|a p IH]; intros s; simpl.
  - split; [by exists s|done].
  - destruct s as [|c s].
    + split; [done|]. by intros (b & ?).
    + rewrite andb_true_iff, N.eqb_eq, IH. split.
      * intros (-> & b & ->). by exists b.
      * intros (b & [= -> ->]). split; [done|]. by exists b.
Qed.

Lemma includes_spec p s : includes p s = true ↔ ∃ a b, s = a ++ p ++ b.
Proof.
  induction s as [|c s IH].
  - simpl. rewrite orb_false_r, startsWith_spec. split.
    + intros (b & ->). by exists [], b.
    + intros (a & b & H). symmetry in H.
      apply app_eq_nil in H as [-> H]. eauto.
  - cbn [includes]. rewrite orb_true_iff, startsWith_spec, IH. split.
    + intros [(b & ->)|(a & b & ->)]; [by exists [], b|by exists (c :: a), b].
    + intros ([|x a] & b & H); simpl in H.
      * left. by exists b.
      * injection H as <- ->. right. by exists a, b.
Qed.

Lemma includes_reverse p s : includes (reverse p) (reverse s) = includes p s.
Proof.
  apply eq_true_iff_eq. rewrite !includes_spec. split.
  - intros (a & b & H). exists (reverse b), (reverse a).
    apply (f_equal reverse) in H.
    by rewrite !reverse_app, !reverse_involutive, <- (assoc_L (++)) in H.
  - intros (a & b & ->). exists (reverse b), (reverse a).
    by rewrite !reverse_app, <- (assoc_L (++)).
Qed.

Lemma includes_trimStart c p s :
  is_space c = false → includes (c :: p) (trimStart s) = includes (c :: p) s.
Proof.
  intros Hc. induction s as [|x s IH]; [done|].
  cbn [trimStart]. destruct (is_space x) eqn:Hx; [|done].
  rewrite IH. cbn [includes startsWith].
  destruct (c =? x) eqn:E; [|done].
  apply N.eqb_eq in E. congruence.
Qed.

Lemma includes_trimEnd c p s :
  is_space c = false →
  includes (p ++ [c]) (trimEnd s) = includes (p ++ [c]) s.
Proof.
  intros Hc. unfold trimEnd.
  rewrite <- (includes_reverse (p ++ [c]) s), <- includes_reverse.
  rewrite reverse_involutive, reverse_app. by apply includes_trimStart.
Qed.

(** Trimming a sheet name neither adds nor removes the marker 班表. *)
Lemma includes_marker_trim s :
  includes (js "班表") (trim s) = includes (js "班表") s.
Proof.
  unfold trim. transitivity (includes (js "班表") (trimStart s)).
  - exact (includes_trimEnd 0x8868 [0x73ED] (trimStart s) eq_refl).
  - exact (includes_trimStart 0x73ED [0x8868] s eq_refl).
Qed.


Section NormalizerProperties.

Variable Cf : N → bool.




Lemma gasPayloadToRows_source payload options o :
  o ∈ (gasPayloadToRows Cf payload options).2 →
  ∃ idx r,
    o = toRecord (payload_headers payload)
          (findNameIndex (payload_headers payload))
          (payload_dateCols payload) options idx r
    ∧ r ∈ payload_rows payload
    ∧ isBlankRow Cf (payload_headers payload) r = false.
Proof.
  unfold gasPayloadToRows. simpl.
  intros (idx & r & -> & Hr)%elem_of_lookup_imap.
  apply list_elem_of_lookup_2, list_elem_of_filter in Hr as [Hb Hr].
  exists idx, r. split; [done|]. split; [done|].
  by destruct (isBlankRow Cf (payload_headers payload) r).
Qed.

(** C8, as the code has it: when attendance is not disabled by the options,
    the sheet name contains 班表 and the payload lists at least one date
    column, every emitted row that carries a non-empty [att] array has its
    [_attendance] and [_attendanceRate] populated. *)
Theorem gasPayloadToRows_attendance_populated payload opts o :
  opt_disableAttendance opts = false →
  includes (js "班表") (String_cell (opt_sheetName opts)) = true →
  (∃ d ds, payload_dateCols payload = Some (d :: ds)) →
  o ∈ (gasPayloadToRows Cf payload (Some opts)).2 →
  (∃ a l, _att o = Some (a :: l)) →
  ∃ s, _attendance o = Some s ∧ _attendanceRate o = Some (rate s).
Proof.
  intros Hdis Hname (d & ds & Hcols) Ho (a & l & Hatt).
  apply gasPayloadToRows_source in Ho as (idx & r & -> & _ & Hblank).
  assert (payload_headers payload ≠ []) as Hh.
  { intros E. by rewrite E in Hblank. }
  unfold toRecord in *. simpl in *. rewrite Hdis. simpl.
  unfold calcAttendance. simpl.
  rewrite includes_marker_trim, Hname, Hcols, Hatt. simpl.
  destruct (payload_headers payload) as [|h hs]; [done|]. simpl.
  case_match. eauto.
Qed.

End NormalizerProperties.

Example calcAttendance_sample :
  calcAttendance sample_headers (Some [1; 2; 3]%Z) sample_row scheduleOptions
  = Some sample_summary.
Proof. vm_compute. reflexivity. Qed.

Lemma sample_summary_computed : Computed Cf_unicode sample_summary.
Proof.
  apply (computed_calcAttendance Cf_unicode sample_headers (Some [1; 2; 3]%Z)
           sample_row scheduleOptions).
  vm_compute. reflexivity.
Defined.

Lemma status_matches_rate_witness :
  Computed Cf_unicode sample_summary
  ∧ ((status sample_summary = normal ↔ (0.9 <= rate sample_summary)%Q)
     ∧ (status sample_summary = low ↔
        (0.75 <= rate sample_summary)%Q ∧ (rate sample_summary < 0.9)%Q)
     ∧ (status sample_summary = abnormal ↔ (rate sample_summary < 0.75)%Q)).
Proof.
  split; [exact sample_summary_computed|].
  apply (status_matches_rate Cf_unicode sample_summary).
  exact sample_summary_computed.
Defined.

Lemma rate_is_bounded_quotient_witness :
  Computed Cf_unicode sample_summary
  ∧ (((0 < expected sample_summary)%nat →
      rate sample_summary
      = (inject_Z (Z.of_nat (attended sample_summary))
         / inject_Z (Z.of_nat (expected sample_summary)))%Q)
     ∧ (expected sample_summary = 0%nat → rate sample_summary = 0%Q)
     ∧ (attended sample_summary ≤ expected sample_summary)%nat
     ∧ (0 <= rate sample_summary)%Q ∧ (rate sample_summary <= 1)%Q).
Proof.
  split; [exact sample_summary_computed|].
  apply (rate_is_bounded_quotient Cf_unicode sample_summary).
  exact sample_summary_computed.
Defined.


(** C8 as stated fails on a schedule sheet whose row has no [att] array:
    attendance is enabled, the sheet name is 班表, and the emitted row has
    neither field. *)
Lemma gasPayloadToRows_attendance_unpopulated :
  (opt_disableAttendance <$> scheduleOptions) = Some false
  ∧ includes (js "班表") (String_cell (scheduleOptions ≫= opt_sheetName)) = true
  ∧ (λ o, (_attendance o, _attendanceRate o))
      <$> (gasPayloadToRows Cf_unicode unflagged_payload scheduleOptions).2
    = [(None, None)].
Proof. repeat apply conj; vm_compute; reflexivity. Qed.

Lemma gasPayloadToRows_attendance_populated_witness :
  opt_disableAttendance sample_options = false
  ∧ includes (js "班表") (String_cell (opt_sheetName sample_options)) = true
  ∧ (∃ d ds, payload_dateCols sample_payload = Some (d :: ds))
  ∧ sample_record
    ∈ (gasPayloadToRows Cf_unicode sample_payload (Some sample_options)).2
  ∧ (∃ a l, _att sample_record = Some (a :: l))
  ∧ ∃ s, _attendance sample_record = Some s
         ∧ _attendanceRate sample_record = Some (rate s).
Proof.
  assert (sample_record
          ∈ (gasPayloadToRows Cf_unicode sample_payload (Some sample_options)).2)
    as Ho.
  { apply list_elem_of_singleton. vm_compute. reflexivity. }
  assert (∃ d ds, payload_dateCols sample_payload = Some (d :: ds)) as Hd.
  { exists 1%Z, [2; 3]%Z. reflexivity. }
  assert (∃ a l, _att sample_record = Some (a :: l)) as Ha.
  { exists 0%Z, [1; 0; 0]%Z. reflexivity. }
  assert (includes (js "班表") (String_cell (opt_sheetName sample_options))
          = true) as Hn.
  { vm_compute. reflexivity. }
  repeat apply conj; try assumption; try reflexivity.
  exact (gasPayloadToRows_attendance_populated Cf_unicode sample_payload
           sample_options sample_record eq_refl Hn Hd Ho Ha).
Defined.

(** ** Per-employee aggregation *)

Lemma getNameFromRow_truthy r : truthy (getNameFromRow r) = true.
Proof. unfold getNameFromRow. by case_match. Qed.

Lemma byName_snoc l r :
  byName (l ++ [r]) = byName_push (getNameFromRow r) r (byName l).
Proof.
  unfold byName. rewrite foldl_snoc. simpl. by rewrite getNameFromRow_truthy.
Qed.

Lemma byName_push_keys nm r m k :
  k ∈ (byName_push nm r m).*1 ↔ k = nm ∨ k ∈ m.*1.
Proof.
  induction m as [|[k0 rs0] m IH]; simpl.
  - rewrite list_elem_of_singleton, elem_of_nil. tauto.
  - destruct (decide (k0 = nm)) as [->|Hne]; simpl.
    + rewrite elem_of_cons. tauto.
    + rewrite !elem_of_cons, IH. tauto.
Qed.

Lemma byName_push_NoDup nm r m :
  NoDup m.*1 → NoDup (byName_push nm r m).*1.
Proof.
  induction m as [|[k0 rs0] m IH]; simpl.
  - intros _. apply NoDup_singleton.
  - intros [Hk Hm]%NoDup_cons. destruct (decide (k0 = nm)) as [->|Hne]; simpl.
    + by apply NoDup_cons.
    + apply NoDup_cons. split; [|by apply IH].
      rewrite byName_push_keys. tauto.
Qed.

Lemma byName_push_elem nm r m k rs :
  NoDup m.*1 →
  (k, rs) ∈ byName_push nm r m →
  (k ≠ nm ∧ (k, rs) ∈ m)
  ∨ (k = nm ∧ ∃ old, (nm, old) ∈ m ∧ rs = old ++ [r])
  ∨ (k = nm ∧ (nm ∉ m.*1) ∧ rs = [r]).
Proof.
  induction m as [|[k0 rs0] m IH]; simpl.
  - intros _ [= -> ->]%list_elem_of_singleton. right. right.
    split; [done|]. split; [apply not_elem_of_nil|done].
  - intros [Hk Hm]%NoDup_cons. destruct (decide (k0 = nm)) as [->|Hne].
    + intros [[= -> ->]|Hin]%elem_of_cons.
      * right. left. split; [done|]. exists rs0. split; [left|done].
      * left. split; [|by right]. intros ->. apply Hk.
        by apply (list_elem_of_fmap_2 fst) in Hin.
    + intros [[= -> ->]|Hin]%elem_of_cons.
      * left. split; [done|left].
      * destruct (IH Hm Hin) as [[? ?]|[[-> (old & ? & ->)]|(-> & Hn & ->)]].
        -- left. split; [done|by right].
        -- right. left. split; [done|]. exists old. split; [by right|done].
        -- right. right. split; [done|]. split; [|done].
           rewrite elem_of_cons. intros [?|?]; [congruence|done].
Qed.

Lemma filter_name_singleton k r :
  filter (λ r0, getNameFromRow r0 = k) [r]
  = if decide (getNameFromRow r = k) then [r] else [].
Proof. reflexivity. Qed.

(** The group of a name holds the rows of that name, in source order. *)
Lemma byName_spec l :
  NoDup (byName l).*1
  ∧ (∀ k rs, (k, rs) ∈ byName l → rs = filter (λ r, getNameFromRow r = k) l)
  ∧ (∀ r, r ∈ l → getNameFromRow r ∈ (byName l).*1).
Proof.
  induction l as [|r l (Hnd & Hgrp & Hkeys)] using rev_ind.
  - split; [apply NoDup_nil_2|]. split; [by intros k rs ?%elem_of_nil|].
    by intros r ?%elem_of_nil.
  - rewrite byName_snoc. split; [by apply byName_push_NoDup|]. split.
    + intros k rs Hin. rewrite filter_app, filter_name_singleton.
      destruct (byName_push_elem _ _ _ _ _ Hnd Hin)
        as [[Hne Hm]|[[-> (old & Hm & ->)]|(-> & Hn & ->)]].
      * rewrite decide_False by congruence. rewrite app_nil_r. by apply Hgrp.
      * rewrite decide_True by done. by rewrite <- (Hgrp _ _ Hm).
      * rewrite decide_True by done.
        replace (filter (λ r0, getNameFromRow r0 = getNameFromRow r) l)
          with (@nil GasRecordRow); [done|].
        symmetry. apply elem_of_nil_inv.
        intros r' [Hr' Hin']%list_elem_of_filter.
        apply Hn. rewrite <- Hr'. by apply Hkeys.
    + intros r' [Hin|Hin%list_elem_of_singleton]%elem_of_app;
        rewrite byName_push_keys; [right; by apply Hkeys|left; by subst].
Qed.

(** A fold that only adds elements described by [P] collects them. *)
Lemma foldl_collect {S A} (f : S → A → S) (proj : S → gset jsstring)
    (P : A → jsstring → Prop) :
  (∀ acc a x, x ∈ proj (f acc a) ↔ x ∈ proj acc ∨ P a x) →
  ∀ l acc x,
    x ∈ proj (foldl f acc l) ↔ x ∈ proj acc ∨ ∃ a, a ∈ l ∧ P a x.
Proof.
  intros Hf l. induction l as [|a l IH]; intros acc x; simpl.
  - split; [by left|]. intros [?|(a & ?%elem_of_nil & _)]; done.
  - rewrite IH, Hf. split.
    + intros [[?|?]|(b & ? & ?)]; [by left| |].
      * right. exists a. split; [left|done].
      * right. exists b. split; [by right|done].
    + intros [?|(b & [->|?]%elem_of_cons & ?)]; [by left; left|by left; right|].
      right. by exists b.
Qed.

Lemma dateIdentity_identity_of headersISO hk ci x :
  x = dateIdentity headersISO hk ci ↔ identity_of headersISO hk ci x.
Proof.
  unfold dateIdentity, identity_of.
  destruct (trim (String_cell (index headersISO ci))) as [|c iso]; simpl.
  - destruct (trim hk) as [|d h]; simpl.
    + split; [by right; right|]. by intros [[? _]|[(_ & ? & _)|(_ & _ & ?)]].
    + split; [by right; left|]. by intros [[? _]|[(_ & _ & ?)|(_ & ? & _)]].
  - split; [by left|]. by intros [[_ ?]|[[? _]|[? _]]].
Qed.

Lemma header_guard hk :
  negb (truthy hk) || negb (truthy (trim hk)) = false ↔ trim hk ≠ [].
Proof.
  destruct hk as [|c hk]; [done|]. simpl.
  by rewrite negb_false_iff, truthy_true.
Qed.

Lemma worst_step_should headers headersISO row acc ci x :
  x ∈ (worst_step headers headersISO buildExcludeForAttRateSet
         buildExcludeFromAbsSet row acc ci).1
  ↔ x ∈ acc.1 ∨ should_at headers headersISO row ci x.
Proof.
  destruct acc as [es ats]. unfold worst_step, should_at. simpl.
  destruct (index headers ci) as [hk|];
    [|split; [by left|by intros [?|(hk & ? & _)]]].
  destruct (negb (truthy hk) || negb (truthy (trim hk))) eqn:Eg.
  { split; [by left|]. intros [?|(hk' & [= <-] & Hk & _)]; [done|].
    apply header_guard in Hk. congruence. }
  apply header_guard in Eg.
  destruct (isShouldAttendCell (rec_cols row !! hk) buildExcludeForAttRateSet)
    eqn:Es; simpl.
  - rewrite elem_of_union, elem_of_singleton, dateIdentity_identity_of.
    split.
    + intros [?|?]; [right|by left]. by exists hk.
    + intros [?|(hk' & [= <-] & _ & _ & ?)]; [by right|by left].
  - split; [by left|]. intros [?|(hk' & [= <-] & _ & ? & _)]; [done|congruence].
Qed.


Lemma person_sets_should headers headersISO cols personRows x :
  x ∈ (person_sets headers headersISO cols personRows).1 ↔
  ∃ row, row ∈ personRows
         ∧ ∃ ci, ci ∈ cols ∧ should_at headers headersISO row ci x.
Proof.
  unfold person_sets.
  rewrite (foldl_collect _ fst
             (λ row x, ∃ ci, ci ∈ cols ∧ should_at headers headersISO row ci x)).
  - simpl. rewrite elem_of_empty. tauto.
  - intros acc row y.
    apply (foldl_collect _ fst (λ ci x, should_at headers headersISO row ci x)).
    intros acc' ci z. apply worst_step_should.
Qed.


(** The ranking is in ascending order of rate. *)
Lemma sort_insert_sorted x l :
  Sorted by_rate l → Sorted by_rate (sort_insert x l).
Proof.
  induction l as [|y l IH]; simpl; intros Hl.
  - by repeat constructor.
  - destruct (Qle_bool (rate (summary x)) (rate (summary y))) eqn:E.
    + constructor; [done|]. constructor. by apply Qle_bool_iff.
    + apply Sorted_inv in Hl as [Hl Hy].
      constructor; [by apply IH|].
      assert (by_rate y x) as Hyx.
      { apply Qlt_le_weak, Qnot_le_lt. intros H%Qle_bool_iff. congruence. }
      destruct l as [|z l]; simpl; [by constructor|].
      destruct (Qle_bool (rate (summary x)) (rate (summary z)));
        constructor; [done|]. by apply HdRel_inv in Hy.
Qed.

Lemma sort_by_rate_sorted l : Sorted by_rate (sort_by_rate l).
Proof.
  induction l as [|x l IH]; simpl; [constructor|]. by apply sort_insert_sorted.
Qed.

Section AggregatorProperties.

Variable Cf : N → bool.

(** An item of the ranking and the rows it is computed from. *)
Lemma refreshWorstAttendance_group payload source it :
  it ∈ refreshWorstAttendance Cf payload source →
  it ∈ person_item (payload_headers payload)
         (default [] (payload_headersISO payload)) (effectiveDateCols payload)
         (item_name it,
          filter (λ r, getNameFromRow r = item_name it)
            (gasPayloadToRows Cf payload (worstOptions source)).2).
Proof.
  intros ([k rs] & Hentry & Hit)%refreshWorstAttendance_items.
  pose proof (person_item_elem _ _ _ _ _ _ Hit) as (Hn & _).
  destruct (byName_spec (gasPayloadToRows Cf payload (worstOptions source)).2)
    as (_ & Hgrp & _).
  apply Hgrp in Hentry. by rewrite Hn, <- Hentry.
Qed.




End AggregatorProperties.

Example refreshWorstAttendance_two_rows :
  refreshWorstAttendance Cf_unicode two_row_payload (js "班表") = [two_row_item].
Proof. vm_compute. reflexivity. Qed.




(** ** Sheet-query cache *)

Section CacheProperties.

Import QueryCache.




End CacheProperties.

Example sample_key_built :
  QueryCache.getBaseUrl sample_env = Some sample_base
  ∧ QueryCache.cacheKey sample_base (js "TAO1") (js "班表") None = sample_key.
Proof. split; vm_compute; reflexivity. Qed.

Example cache_ttl_boundary :
  QueryCache.gasQuerySheet_enter sample_env 119999 cached_store (js "TAO1")
    (js "班表") None
  = (cached_store, QueryCache.Returns sample_payload)
  ∧ length (QueryCache.fetches
              (QueryCache.gasQuerySheet_enter sample_env 120000 cached_store
                 (js "TAO1") (js "班表") None).2) = 1%nat.
Proof. split; vm_compute; reflexivity. Qed.


Example js_xiu : js "休" = [0x4F11]. Proof. reflexivity. Qed.
Example js_banbiao : js "班表" = [0x73ED; 0x8868]. Proof. reflexivity. Qed.
Example js_ascii : js "A1" = [65; 49]. Proof. reflexivity. Qed.
Example js_split :
  split (λ c, c =? 47) (js "/a//b/") = [js ""; js "a"; js "b"; js ""].
Proof. reflexivity. Qed.
Example js_trim : trim (js "  a b
 ") = js "a b".
Proof. reflexivity. Qed.
Example js_string_int : String_int 120 = js "120" ∧ String_int (-7) = js "-7".
Proof. split; reflexivity. Qed.

Example tokenize_two :
  tokenizeCell (Some (js "休/加班")) = [js "休"; js "加班"].
Proof. reflexivity. Qed.
Example tokenize_runs :
  tokenizeCell (Some (js " 病假、 ,/事假
 ;")) = [js "病假"; js "事假"].
Proof. reflexivity. Qed.
Example should_xiu :
  isShouldAttendCell (Some (js "休")) buildExcludeForAttRateSet = false.
Proof. vm_compute. reflexivity. Qed.
Example should_xiu_jiaban :
  isShouldAttendCell (Some (js "休/加班")) buildExcludeForAttRateSet = false.
Proof. vm_compute. reflexivity. Qed.
Example auto_A1 : isAutoAttendCell (Some (js "A1")) buildExcludeFromAbsSet = true.
Proof. vm_compute. reflexivity. Qed.
Example status_boundaries :
  statusFromRate 0.9 = normal ∧ statusFromRate 0.8999 = low
  ∧ statusFromRate 0.75 = low ∧ statusFromRate 0.7499 = abnormal.
Proof. repeat apply conj; vm_compute; reflexivity. Qed.
Example findNameIndex_sample :
  findNameIndex sample_headers = 0%Z
  ∧ findNameIndex [js "部門"; js " 員工Name "; js "NAME"] = 2%Z
  ∧ findNameIndex [js "部門"] = (-1)%Z.
Proof. repeat apply conj; vm_compute; reflexivity. Qed.
Example cleanForBlankCheck_invisible :
  cleanForBlankCheck Cf_unicode (Some [0x200B; 0x20; 0xA0; 0xAD; 0xDB40; 0xDC01; 9])
  = js "".
Proof. vm_compute. reflexivity. Qed.
Example doQuery_rows_sample :
  _attendance <$> doQuery_rows Cf_unicode unflagged_payload (js "班表")
  = [Some {| rate := 0 # 1; attended := 0; expected := 1; status := abnormal |}].
Proof. vm_compute. reflexivity. Qed.
Example refreshWorstAttendance_three_employees :
  (λ it, (item_name it, attended (summary it), expected (summary it)))
    <$> refreshWorstAttendance Cf_unicode three_employee_payload (js "班表")
  = [(js "李大同", 0%nat, 1%nat); (js "王小明", 1%nat, 1%nat)]
  ∧ item_name
      <$> attBest5 (refreshWorstAttendance Cf_unicode three_employee_payload
                      (js "班表"))
    = [js "王小明"; js "李大同"].
Proof. split; vm_compute; reflexivity. Qed.
Example cache_flow_success :
  let st := (QueryCache.gasQuerySheet_settle sample_key 500
               (QueryCache.Resolved sample_payload) pending_store).1 in
  QueryCache.QUERY_CACHE st !! sample_key
  = Some {| QueryCache.ts := 500; QueryCache.value := sample_payload |}
  ∧ QueryCache.QUERY_INFLIGHT st !! sample_key = None
  ∧ (QueryCache.gasQuerySheet_enter sample_env 120499 st (js "TAO1")
       (js "班表") None).2 = QueryCache.Returns sample_payload
  ∧ length (QueryCache.fetches
              (QueryCache.gasQuerySheet_enter sample_env 120500 st (js "TAO1")
                 (js "班表") None).2) = 1%nat.
Proof. repeat apply conj; vm_compute; reflexivity. Qed.
Example cache_flow_failure :
  QueryCache.gasQuerySheet_settle sample_key 500
    (QueryCache.Rejected (js "API 錯誤 500")) pending_store
  = (empty_store, inr (js "API 錯誤 500")).
Proof. vm_compute. reflexivity. Qed.

(** * Further properties *)

(** ** Tokens and exclusion sets *)

Lemma trimStart_suffix s : ∃ p, s = p ++ trimStart s.
Proof.
  induction s as [|c r [p IH]]; simpl; [by exists []|].
  destruct (is_space c); [|by exists []].
  exists (c :: p). simpl. by rewrite <- IH.
Qed.

Lemma elem_of_trim c s : c ∈ trim s → c ∈ s.
Proof.
  unfold trim, trimEnd. rewrite elem_of_reverse. intros Hc.
  destruct (trimStart_suffix (reverse (trimStart s))) as [p Hp].
  assert (c ∈ reverse (trimStart s)) as Hr.
  { rewrite Hp. apply elem_of_app. by right. }
  rewrite elem_of_reverse in Hr.
  destruct (trimStart_suffix s) as [q Hq]. rewrite Hq.
  apply elem_of_app. by right.
Qed.

Lemma split_runs_no_separator sep cur inrun s piece :
  Forall (λ c, sep c = false) cur →
  piece ∈ split_runs sep cur inrun s →
  Forall (λ c, sep c = false) piece.
Proof.
  revert cur inrun. induction s as [|c r IH]; intros cur inrun Hcur; simpl.
  - intros ->%list_elem_of_singleton. by apply Forall_reverse.
  - destruct (sep c) eqn:Hc.
    + destruct inrun.
      * by apply IH.
      * intros [->|Hin]%elem_of_cons; [by apply Forall_reverse|].
        by apply (IH [] true).
    + apply IH. by constructor.
Qed.

Lemma tokens_clean raw :
  Forall (λ t, t ≠ [] ∧ trim t = t ∧ Forall (λ c, is_separator c = false) t)
    (tokenizeCell raw).
Proof.
  apply Forall_forall. intros t. unfold tokenizeCell. simpl.
  destruct (truthy (trim (String_cell raw))); simpl; [|by intros ?%elem_of_nil].
  intros [Ht (x & -> & Hx)%list_elem_of_fmap]%list_elem_of_filter.
  split; [by apply truthy_true, Is_true_true|].
  split; [apply trim_idem|].
  apply Forall_forall. intros c Hc%elem_of_trim.
  assert (Forall (λ c, is_separator c = false) x) as Hall.
  { by apply (split_runs_no_separator is_separator [] false
                (trim (String_cell raw)) x). }
  rewrite Forall_forall in Hall. by apply Hall.
Qed.

(** X1.  Every token of a cell is non-empty, carries no white space at either
    end, and holds none of the separator characters. *)
Theorem tokenizeCell_tokens_clean raw :
  Forall (λ t, t ≠ [] ∧ trim t = t ∧ Forall (λ c, is_separator c = false) t)
    (tokenizeCell raw).
Proof. exact (tokens_clean raw). Qed.

(** X2.  A token read back as a cell is its own single token. *)
Theorem tokenizeCell_token_fixed raw :
  Forall (λ t, tokenizeCell (Some t) = [t]) (tokenizeCell raw).
Proof.
  pose proof (tokens_clean raw) as H.
  eapply Forall_impl; [exact H|]. clear H.
  intros t (Hne & Htrim & Hsep). unfold tokenizeCell. simpl. rewrite Htrim.
  apply truthy_true in Hne. rewrite Hne. simpl.
  assert (∀ cur, split_runs is_separator cur false t = [reverse cur ++ t]) as Hs.
  { clear Hne Htrim. induction Hsep as [|c r Hc Hr IH]; intros cur; simpl.
    - by rewrite app_nil_r.
    - rewrite Hc, IH. by rewrite reverse_cons, <- (assoc_L (++)). }
  unfold split. rewrite Hs. simpl. rewrite Htrim.
  rewrite filter_cons_True by (by apply Is_true_true). done.
Qed.

Lemma excludeSet_members list t :
  t ∈ buildExcludeSet list ↔
  t ∈ buildExcludeSet None ∨ ∃ x, x ∈ default [] list ∧ trim x = t ∧ t ≠ [].
Proof.
  unfold buildExcludeSet. cbv zeta.
  generalize (list_to_set
                [js "休"; js "休假"; js "公休"; js "特休"; js "病假"; js "事假";
                 js "喪假"; js "婚假"; js "產假"; js "育嬰"; js "OFF"; js "off";
                 js "離"] : gset jsstring).
  intros base. change (default [] None) with (@nil jsstring). cbn [foldl].
  apply (foldl_collect _ (λ s : gset jsstring, s) (λ a x, trim a = x ∧ x ≠ [])).
  intros acc a x. destruct (truthy (trim a)) eqn:E.
  - apply truthy_true in E. rewrite elem_of_union, elem_of_singleton. split.
    + intros [->|?]; [by right|by left].
    + intros [?|[-> _]]; [by right|by left].
  - apply truthy_false in E. split; [by left|].
    intros [?|[<- ?]]; done.
Qed.

(** X3.  The exclusion set of the normalizer holds the base tokens and the
    caller's additions, trimmed, the blank ones left out, and nothing else. *)
Theorem buildExcludeSet_members list t :
  t ∈ buildExcludeSet list ↔
  t ∈ buildExcludeSet None ∨ ∃ x, x ∈ default [] list ∧ trim x = t ∧ t ≠ [].
Proof. exact (excludeSet_members list t). Qed.

Lemma isShouldAttendCell_antitone (raw : option jsstring) (ex ex' : gset jsstring) :
  ex ⊆ ex' →
  isShouldAttendCell raw ex' = true → isShouldAttendCell raw ex = true.
Proof.
  intros Hsub. rewrite !isShouldAttendCell_tokens. intros H t Ht Hin.
  apply (H t Ht). by apply Hsub.
Qed.

Lemma calc_step_antitone (headers : list jsstring) (row : GasRow) (att : list Z)
    (ex ex' : gset jsstring) (acc acc' : nat * nat) (ci : Z) :
  ex ⊆ ex' →
  (acc'.1 ≤ acc.1)%nat → (acc'.2 ≤ acc.2)%nat →
  ((calc_step headers row att ex' acc' ci).1
   ≤ (calc_step headers row att ex acc ci).1)%nat
  ∧ ((calc_step headers row att ex' acc' ci).2
     ≤ (calc_step headers row att ex acc ci).2)%nat.
Proof.
  intros Hsub. destruct acc as [s a], acc' as [s' a']. simpl. intros Hs Ha.
  unfold calc_step.
  destruct (index headers ci) as [hk|]; [|done].
  destruct (negb (truthy hk) || negb (truthy (trim hk))); [done|].
  destruct ((ci <? 0)%Z || (Z.of_nat (length (row_v row)) <=? ci)%Z); [done|].
  destruct (isShouldAttendCell (index (row_v row) ci) ex') eqn:E'.
  - rewrite (isShouldAttendCell_antitone _ ex ex' Hsub E'). simpl.
    destruct (truthy_num (index att ci)); simpl; lia.
  - destruct (isShouldAttendCell (index (row_v row) ci) ex); simpl; [|done].
    destruct (truthy_num (index att ci)); simpl; lia.
Qed.

(** X4.  Adding tokens to [excludeForAttRate] never raises the expected or the
    attended count of a row, and does not change whether the row gets a
    summary. *)
Theorem calcAttendance_more_exclusions headers dateCols row disable sheetName
    (l1 l2 : option (list jsstring)) :
  (∀ x, x ∈ default [] l1 → x ∈ default [] l2) →
  match
    calcAttendance headers dateCols row
      (Some {| opt_disableAttendance := disable; opt_sheetName := sheetName;
               opt_excludeForAttRate := l1 |}),
    calcAttendance headers dateCols row
      (Some {| opt_disableAttendance := disable; opt_sheetName := sheetName;
               opt_excludeForAttRate := l2 |})
  with
  | Some s1, Some s2 =>
    (expected s2 ≤ expected s1)%nat ∧ (attended s2 ≤ attended s1)%nat
  | None, None => True
  | _, _ => False
  end.
Proof.
  intros Hsub. unfold calcAttendance. simpl.
  destruct (negb (includes (js "班表") (trim (String_cell sheetName)))); [done|].
  destruct (negb (0 <? length (default [] dateCols))%nat); [done|].
  destruct (negb (0 <? length headers)%nat); [done|].
  destruct (row_att row) as [att|]; [|done].
  destruct (negb (0 <? length att)%nat); [done|].
  assert (buildExcludeSet l1 ⊆ buildExcludeSet l2) as Hex.
  { intros t. rewrite (excludeSet_members l1), (excludeSet_members l2).
    intros [?|(x & Hx & ?)]; [by left|right]. exists x. split; [by apply Hsub|done]. }
  assert (∀ cols acc acc',
            (acc'.1 ≤ acc.1)%nat → (acc'.2 ≤ acc.2)%nat →
            ((foldl (calc_step headers row att (buildExcludeSet l2)) acc' cols).1
             ≤ (foldl (calc_step headers row att (buildExcludeSet l1)) acc cols).1)%nat
            ∧ ((foldl (calc_step headers row att (buildExcludeSet l2)) acc' cols).2
               ≤ (foldl (calc_step headers row att (buildExcludeSet l1)) acc cols).2)%nat)
    as Hfold.
  { induction cols as [|ci cols IH]; intros acc acc' H1 H2; simpl; [done|].
    destruct (calc_step_antitone headers row att _ _ acc acc' ci Hex H1 H2).
    by apply IH. }
  destruct (Hfold (default [] dateCols) (0, 0)%nat (0, 0)%nat) as [H1 H2];
    [done|done|].
  destruct (foldl (calc_step headers row att (buildExcludeSet l1)) _ _) as [s1 a1].
  destruct (foldl (calc_step headers row att (buildExcludeSet l2)) _ _) as [s2 a2].
  done.
Qed.

Lemma calcAttendance_more_exclusions_witness :
  (∀ x, x ∈ default [] None → x ∈ default [] (Some [js " 加班 "]))
  ∧ match
      calcAttendance sample_headers (Some [1; 2; 3]%Z) sample_row
        (Some {| opt_disableAttendance := false;
                 opt_sheetName := Some (js "班表");
                 opt_excludeForAttRate := None |}),
      calcAttendance sample_headers (Some [1; 2; 3]%Z) sample_row
        (Some {| opt_disableAttendance := false;
                 opt_sheetName := Some (js "班表");
                 opt_excludeForAttRate := Some [js " 加班 "] |})
    with
    | Some s1, Some s2 =>
      (expected s2 ≤ expected s1)%nat ∧ (attended s2 ≤ attended s1)%nat
    | None, None => True
    | _, _ => False
    end.
Proof.
  assert (∀ x, x ∈ default [] None → x ∈ default [] (Some [js " 加班 "])) as H.
  { intros x Hx. by apply elem_of_nil in Hx. }
  split; [exact H|].
  exact (calcAttendance_more_exclusions sample_headers (Some [1; 2; 3]%Z)
           sample_row false (Some (js "班表")) None (Some [js " 加班 "]) H).
Defined.

(** ** Name column and emitted records *)

Lemma exact_name_label_test x :
  truthy (trim x)
  && bool_decide
       (trim x ∈ [js "姓名"; js "Name"; js "name"; js "員工姓名"; js "中文姓名"])
  ↔ exact_name_label x.
Proof.
  unfold exact_name_label. rewrite andb_True, bool_decide_spec. split.
  - by intros [_ ?].
  - intros H. split; [|done]. apply Is_true_true, truthy_true. intros E.
    rewrite E in H.
    repeat (apply elem_of_cons in H as [H|H]; [discriminate H|]).
    by apply elem_of_nil in H.
Qed.

Lemma loose_name_label_test x :
  truthy (trim x)
  && (includes (js "姓名") (trim x)
      || bool_decide (ascii_lower <$> trim x = js "name"))
  ↔ loose_name_label x.
Proof.
  unfold loose_name_label.
  rewrite andb_True, orb_True, bool_decide_spec, !Is_true_true, truthy_true.
  done.
Qed.

Lemma findNameIndex_unfold headers :
  findNameIndex headers
  = match list_find exact_name_label headers with
    | Some (i, _) => Z.of_nat i
    | None =>
      match list_find loose_name_label headers with
      | Some (i, _) => Z.of_nat i
      | None => (-1)%Z
      end
    end.
Proof.
  unfold findNameIndex. cbv zeta.
  rewrite (list_find_ext _ exact_name_label headers exact_name_label_test).
  rewrite (list_find_ext _ loose_name_label headers loose_name_label_test).
  done.
Qed.

(** X5.  [findNameIndex] returns the first header with one of the exact labels,
    wherever a merely similar label stands; without an exact label, the
    first header that contains 姓名 or reads "name" in any case; and -1 when
    no header qualifies.  The result is -1 or a position of the list. *)
Theorem findNameIndex_first_match headers :
  (∀ i, first_label exact_name_label headers i →
        findNameIndex headers = Z.of_nat i)
  ∧ (∀ i, Forall (λ h, ¬ exact_name_label h) headers →
          first_label loose_name_label headers i →
          findNameIndex headers = Z.of_nat i)
  ∧ (Forall (λ h, ¬ exact_name_label h ∧ ¬ loose_name_label h) headers ↔
     findNameIndex headers = (-1)%Z)
  ∧ (-1 ≤ findNameIndex headers < Z.of_nat (length headers))%Z.
Proof.
  rewrite findNameIndex_unfold. repeat apply conj.
  - intros i (h & Hi & Hh & Hfirst).
    assert (list_find exact_name_label headers = Some (i, h)) as ->; [|done].
    by apply list_find_Some.
  - intros i Hnone (h & Hi & Hh & Hfirst).
    rewrite (proj2 (list_find_None exact_name_label headers) Hnone).
    assert (list_find loose_name_label headers = Some (i, h)) as ->; [|done].
    by apply list_find_Some.
  - intros H.
    assert (list_find exact_name_label headers = None) as ->.
    { apply list_find_None. eapply Forall_impl; [exact H|]. by intros h [? _]. }
    assert (list_find loose_name_label headers = None) as ->; [|done].
    apply list_find_None. eapply Forall_impl; [exact H|]. by intros h [_ ?].
  - destruct (list_find exact_name_label headers) as [[i h]|] eqn:E1; [lia|].
    destruct (list_find loose_name_label headers) as [[i h]|] eqn:E2; [lia|].
    intros _. apply list_find_None in E1, E2.
    apply Forall_and. done.
  - destruct (list_find exact_name_label headers) as [[i h]|];
      [lia|destruct (list_find loose_name_label headers) as [[i h]|]; lia].
  - destruct (list_find exact_name_label headers) as [[i h]|] eqn:E1.
    + apply list_find_Some in E1 as [Hi _]. apply lookup_lt_Some in Hi. lia.
    + destruct (list_find loose_name_label headers) as [[i h]|] eqn:E2; [|lia].
      apply list_find_Some in E2 as [Hi _]. apply lookup_lt_Some in Hi. lia.
Qed.

Example findNameIndex_exact_wins : findNameIndex loose_first_headers = 2%Z.
Proof. vm_compute. reflexivity. Qed.



Section RecordProperties.

Variable Cf : N → bool.









End RecordProperties.





(** ** Counts, ranking and totals *)

Lemma size_list_to_set_le (l : list jsstring) :
  (size (list_to_set l : gset jsstring) ≤ length l)%nat.
Proof.
  induction l as [|x l IH].
  - done.
  - change (list_to_set (x :: l) : gset jsstring)
      with ({[x]} ∪ list_to_set l : gset jsstring).
    cbn [length].
    rewrite size_union_alt, size_singleton.
    pose proof (subseteq_size (list_to_set l ∖ {[x]}) (list_to_set l : gset jsstring)).
    assert ((list_to_set l : gset jsstring) ∖ {[x]} ⊆ list_to_set l) as Hsub
      by (intros y [? _]%elem_of_difference; done).
    specialize (H Hsub). lia.
Qed.

Lemma calc_fold_bound headers row att exclude cols acc :
  ((foldl (calc_step headers row att exclude) acc cols).1
   ≤ acc.1 + length cols)%nat.
Proof.
  revert acc. induction cols as [|ci cols IH]; intros acc; simpl; [lia|].
  etrans; [apply IH|].
  assert ((calc_step headers row att exclude acc ci).1 ≤ S acc.1)%nat; [|lia].
  destruct acc as [s a]. unfold calc_step. simpl.
  repeat (case_match; simpl; try lia).
Qed.

Lemma doQuery_fold_bound headers row cols acc :
  ((foldl (doQuery_step headers row) acc cols).1 ≤ acc.1 + length cols)%nat.
Proof.
  revert acc. induction cols as [|ci cols IH]; intros acc; simpl; [lia|].
  etrans; [apply IH|].
  assert ((doQuery_step headers row acc ci).1 ≤ S acc.1)%nat; [|lia].
  destruct acc as [s a]. unfold doQuery_step. simpl.
  repeat (case_match; simpl; try lia).
Qed.

Lemma person_sets_bound headers headersISO cols personRows :
  (size (person_sets headers headersISO cols personRows).1 ≤ length cols)%nat.
Proof.
  set (idf := λ ci, dateIdentity headersISO (String_cell (index headers ci)) ci).
  etrans; [|etrans; [apply (size_list_to_set_le (idf <$> cols))|]];
    [|by rewrite length_fmap].
  apply subseteq_size. intros x.
  rewrite person_sets_should, elem_of_list_to_set, list_elem_of_fmap.
  intros (row & _ & ci & Hci & hk & Hhk & _ & _ & Hid).
  exists ci. split; [|done]. apply dateIdentity_identity_of in Hid.
  subst idf. simpl. by rewrite Hhk.
Qed.

Section CountProperties.

Variable Cf : N → bool.

(** X9.  The expected count never exceeds the number of date columns: not for a
    row summarised by [calcAttendance] or by the per-row pass of [doQuery],
    and not for an employee of the ranking, however many rows the employee
    has. *)
Theorem expected_at_most_date_columns :
  (∀ headers dateCols row options s,
     calcAttendance headers dateCols row options = Some s →
     (expected s ≤ length (default [] dateCols))%nat)
  ∧ (∀ headers dateCols isHoursPage isSchedulePage row s,
       _attendance row = None →
       _attendance (doQuery_row headers dateCols isHoursPage isSchedulePage row)
       = Some s →
       (expected s ≤ length dateCols)%nat)
  ∧ (∀ payload source it,
       it ∈ refreshWorstAttendance Cf payload source →
       (expected (summary it) ≤ length (effectiveDateCols payload))%nat).
Proof.
  repeat apply conj.
  - intros headers dateCols row options s. unfold calcAttendance.
    do 3 (case_match; [done|]).
    destruct (row_att row) as [att|]; [|done].
    case_match; [done|].
    pose proof (calc_fold_bound headers row att
                  (buildExcludeSet (options ≫= opt_excludeForAttRate))
                  (default [] dateCols) (0, 0)%nat) as Hb.
    destruct (foldl _ _ _) as [e a]. intros [= <-]. simpl in *. lia.
  - intros headers dateCols isHoursPage isSchedulePage row s Hnone.
    unfold doQuery_row. rewrite Hnone.
    destruct (negb isHoursPage && isSchedulePage && (0 <? length dateCols)%nat).
    + pose proof (doQuery_fold_bound headers row dateCols (0, 0)%nat) as Hb.
      destruct (foldl (doQuery_step headers row) (0, 0)%nat dateCols) as [e a].
      intros [= <-]. simpl in *. lia.
    + intros [= <-]. simpl. lia.
  - intros payload source it Hit.
    apply refreshWorstAttendance_group, person_item_elem in Hit as (_ & -> & _).
    apply person_sets_bound.
Qed.

End CountProperties.

(** *** The range statistics of one employee *)

Lemma doQuery_step_shift headers row acc ci :
  doQuery_step headers row acc ci
  = pair_add acc (doQuery_step headers row (0, 0)%nat ci).
Proof.
  destruct acc as [e a]. unfold doQuery_step, pair_add.
  repeat (case_match; simpl); f_equal; lia.
Qed.

Lemma doQuery_fold_shift headers row cols acc :
  foldl (doQuery_step headers row) acc cols
  = pair_add acc (foldl (doQuery_step headers row) (0, 0)%nat cols).
Proof.
  revert acc. induction cols as [|ci cols IH]; intros acc; cbn [foldl].
  - destruct acc. unfold pair_add. simpl. f_equal; lia.
  - rewrite IH, (IH (doQuery_step _ _ (0, 0)%nat _)), doQuery_step_shift.
    unfold pair_add. simpl. f_equal; lia.
Qed.

Lemma doQuery_fold_app headers row cols1 cols2 :
  foldl (doQuery_step headers row) (0, 0)%nat (cols1 ++ cols2)
  = pair_add (foldl (doQuery_step headers row) (0, 0)%nat cols1)
      (foldl (doQuery_step headers row) (0, 0)%nat cols2).
Proof. by rewrite foldl_app, doQuery_fold_shift. Qed.

Lemma range_fold_shift headers rows cols acc :
  foldl (λ acc row, foldl (doQuery_step headers row) acc cols) acc rows
  = pair_add acc (range_counts headers rows cols).
Proof.
  unfold range_counts. revert acc.
  induction rows as [|row rows IH]; intros acc; cbn [foldl].
  - destruct acc. unfold pair_add. simpl. f_equal; lia.
  - rewrite IH, (IH (foldl _ (0, 0)%nat _)), doQuery_fold_shift.
    unfold pair_add. simpl. f_equal; lia.
Qed.

Lemma range_counts_cons headers row rows cols :
  range_counts headers (row :: rows) cols
  = pair_add (foldl (doQuery_step headers row) (0, 0)%nat cols)
      (range_counts headers rows cols).
Proof. unfold range_counts at 1. simpl. apply range_fold_shift. Qed.

Lemma range_counts_rows_app headers rows1 rows2 cols :
  range_counts headers (rows1 ++ rows2) cols
  = pair_add (range_counts headers rows1 cols)
      (range_counts headers rows2 cols).
Proof.
  unfold range_counts at 1. rewrite foldl_app.
  fold (range_counts headers rows1 cols). apply range_fold_shift.
Qed.

Lemma range_counts_cols_app headers rows cols1 cols2 :
  range_counts headers rows (cols1 ++ cols2)
  = pair_add (range_counts headers rows cols1)
      (range_counts headers rows cols2).
Proof.
  induction rows as [|row rows IH]; [done|].
  rewrite !range_counts_cons, IH, doQuery_fold_app.
  unfold pair_add. simpl. f_equal; lia.
Qed.

Lemma range_counts_le headers rows cols :
  ((range_counts headers rows cols).2 ≤ (range_counts headers rows cols).1
   ≤ length rows * length cols)%nat.
Proof.
  induction rows as [|row rows IH]; [simpl; lia|].
  rewrite range_counts_cons.
  pose proof (doQuery_fold_le headers row cols (0, 0)%nat) as Hle.
  pose proof (doQuery_fold_bound headers row cols (0, 0)%nat) as Hb.
  unfold pair_add. simpl in *. lia.
Qed.

Lemma computeForCols_counts headers rows cols :
  shouldDays (computeForCols headers rows cols)
  = (range_counts headers rows cols).1
  ∧ actDays (computeForCols headers rows cols)
    = (range_counts headers rows cols).2.
Proof.
  unfold computeForCols. fold (range_counts headers rows cols).
  by destruct (range_counts headers rows cols).
Qed.

(** X10.  [computeForCols] never reports more attended than expected days, nor
    more expected days than (rows of the employee) x (columns asked for);
    [absent] is the non-negative difference; the rate is [null] exactly
    when no day is expected and a percentage between 0 and 100 otherwise. *)
Theorem computeForCols_bounds (gasHeaders : list jsstring)
    (personRows : list GasRecordRow) (colIndices : list Z) :
  let st := computeForCols gasHeaders personRows colIndices in
  (actDays st ≤ shouldDays st ≤ length personRows * length colIndices)%nat
  ∧ (0 ≤ absent st)%Z
  ∧ (Z.of_nat (actDays st) + absent st = Z.of_nat (shouldDays st))%Z
  ∧ (rate_percent st = None ↔ shouldDays st = 0%nat)
  ∧ (∀ q, rate_percent st = Some q →
          (0 <= q <= 100)%Q
          ∧ (q * inject_Z (Z.of_nat (shouldDays st))
             == inject_Z (Z.of_nat (actDays st)) * 100)%Q).
Proof.
  intros st.
  destruct (computeForCols_counts gasHeaders personRows colIndices) as [Hs Ha].
  pose proof (range_counts_le gasHeaders personRows colIndices) as Hle.
  fold st in Hs, Ha. rewrite <- Hs, <- Ha in Hle.
  assert (absent st = Z.of_nat (shouldDays st) - Z.of_nat (actDays st))%Z as Hab.
  { subst st. unfold computeForCols. by destruct (foldl _ _ _). }
  assert (rate_percent st
          = if (0 <? shouldDays st)%nat
            then Some (inject_Z (Z.of_nat (actDays st))
                       / inject_Z (Z.of_nat (shouldDays st)) * 100)%Q
            else None) as Hr.
  { subst st. unfold computeForCols. by destruct (foldl _ _ _). }
  split; [lia|]. split; [lia|]. split; [lia|]. split.
  { rewrite Hr. destruct (Nat.ltb_spec 0 (shouldDays st)); split; try done; lia. }
  intros q H. rewrite Hr in H.
  destruct (Nat.ltb_spec 0 (shouldDays st)); [|done]. injection H as <-.
  assert (0 < inject_Z (Z.of_nat (shouldDays st)))%Q as Hpos
    by (unfold Qlt; simpl; lia).
  repeat apply conj.
  - apply Qmult_le_0_compat; [|done].
    apply Qle_shift_div_l; [done|]. unfold Qle; simpl; lia.
  - apply Qle_trans with (1 * 100)%Q; [|done].
    apply Qmult_le_compat_r; [|done].
    apply Qle_shift_div_r; [done|]. unfold Qle; simpl; lia.
  - field. intros Hz. rewrite Hz in Hpos. by apply Qlt_irrefl in Hpos.
Qed.

(** X11.  Asking [computeForCols] for two column ranges one after the other, or
    for two groups of rows, gives the sums of the separate counts: the days
    up to the chosen end date and the days after it add up to the days of
    all date columns. *)
Theorem computeForCols_additive (gasHeaders : list jsstring)
    (rows1 rows2 : list GasRecordRow) (cols1 cols2 : list Z) :
  let c := computeForCols gasHeaders in
  shouldDays (c rows1 (cols1 ++ cols2))
  = (shouldDays (c rows1 cols1) + shouldDays (c rows1 cols2))%nat
  ∧ actDays (c rows1 (cols1 ++ cols2))
    = (actDays (c rows1 cols1) + actDays (c rows1 cols2))%nat
  ∧ absent (c rows1 (cols1 ++ cols2))
    = (absent (c rows1 cols1) + absent (c rows1 cols2))%Z
  ∧ shouldDays (c (rows1 ++ rows2) cols1)
    = (shouldDays (c rows1 cols1) + shouldDays (c rows2 cols1))%nat
  ∧ actDays (c (rows1 ++ rows2) cols1)
    = (actDays (c rows1 cols1) + actDays (c rows2 cols1))%nat.
Proof.
  intros c. subst c.
  assert (∀ rows cols,
            absent (computeForCols gasHeaders rows cols)
            = Z.of_nat (range_counts gasHeaders rows cols).1
              - Z.of_nat (range_counts gasHeaders rows cols).2)%Z as Hab.
  { intros rows cols. unfold computeForCols.
    fold (range_counts gasHeaders rows cols).
    by destruct (range_counts gasHeaders rows cols). }
  rewrite !Hab.
  repeat match goal with
  | |- context [shouldDays (computeForCols ?h ?r ?c)] =>
    rewrite (proj1 (computeForCols_counts h r c))
  | |- context [actDays (computeForCols ?h ?r ?c)] =>
    rewrite (proj2 (computeForCols_counts h r c))
  end.
  rewrite range_counts_cols_app, range_counts_rows_app.
  unfold pair_add. simpl. repeat apply conj; lia.
Qed.

(** *** The ranking counts against the raw counts *)

Lemma worst_step_size headers headersISO row sets counts ci :
  (size sets.1 ≤ counts.1)%nat → (size sets.2 ≤ counts.2)%nat →
  let sets' := worst_step headers headersISO buildExcludeForAttRateSet
                 buildExcludeFromAbsSet row sets ci in
  let counts' := doQuery_step headers row counts ci in
  (size sets'.1 ≤ counts'.1)%nat ∧ (size sets'.2 ≤ counts'.2)%nat.
Proof.
  destruct sets as [E A], counts as [e a]. simpl. intros HE HA.
  unfold worst_step, doQuery_step.
  destruct (index headers ci) as [hk|]; [|done].
  destruct (negb (truthy hk) || negb (truthy (trim hk))); [done|].
  destruct (negb (isShouldAttendCell _ _)); [done|].
  assert (∀ (x : jsstring) (X : gset jsstring) n,
            (size X ≤ n)%nat → (size ({[x]} ∪ X) ≤ S n)%nat) as Hadd.
  { intros x X n Hn. rewrite size_union_alt, size_singleton.
    pose proof (subseteq_size (X ∖ {[x]}) X) as Hsub.
    assert (X ∖ {[x]} ⊆ X) as Hd by (intros y [? _]%elem_of_difference; done).
    specialize (Hsub Hd). lia. }
  destruct (isActualAttendCell _ _ _ _); simpl; split; auto.
Qed.

Lemma worst_fold_size headers headersISO row cols sets counts :
  (size sets.1 ≤ counts.1)%nat → (size sets.2 ≤ counts.2)%nat →
  let sets' := foldl (worst_step headers headersISO buildExcludeForAttRateSet
                        buildExcludeFromAbsSet row) sets cols in
  let counts' := foldl (doQuery_step headers row) counts cols in
  (size sets'.1 ≤ counts'.1)%nat ∧ (size sets'.2 ≤ counts'.2)%nat.
Proof.
  revert sets counts. induction cols as [|ci cols IH]; intros sets counts HE HA.
  - done.
  - simpl.
    destruct (worst_step_size headers headersISO row sets counts ci HE HA).
    by apply IH.
Qed.

Lemma person_fold_size headers headersISO cols rows sets counts :
  (size sets.1 ≤ counts.1)%nat → (size sets.2 ≤ counts.2)%nat →
  let sets' :=
    foldl (λ acc row,
             foldl (worst_step headers headersISO buildExcludeForAttRateSet
                      buildExcludeFromAbsSet row) acc cols) sets rows in
  let counts' :=
    foldl (λ acc row, foldl (doQuery_step headers row) acc cols) counts rows in
  (size sets'.1 ≤ counts'.1)%nat ∧ (size sets'.2 ≤ counts'.2)%nat.
Proof.
  revert sets counts.
  induction rows as [|row rows IH]; intros sets counts HE HA.
  - done.
  - simpl.
    destruct (worst_fold_size headers headersISO row cols sets counts HE HA).
    by apply IH.
Qed.

(** X12.  Over the same rows and columns the ranking, which collects dates in
    sets, reports at most the days that [computeForCols], which adds one per
    (row, column) visit, reports: deduplication only lowers the counts. *)
Theorem person_sets_at_most_computeForCols (headers headersISO : list jsstring)
    (cols : list Z) (personRows : list GasRecordRow) :
  (size (person_sets headers headersISO cols personRows).1
   ≤ shouldDays (computeForCols headers personRows cols))%nat
  ∧ (size (person_sets headers headersISO cols personRows).2
     ≤ actDays (computeForCols headers personRows cols))%nat.
Proof.
  destruct (computeForCols_counts headers personRows cols) as [-> ->].
  unfold person_sets, range_counts.
  apply person_fold_size; done.
Qed.

(** *** The totals of a query *)




Section QueryTotals.

Variable Cf : N → bool.



End QueryTotals.

(** ** The ranking *)

Lemma by_rate_trans a b c : by_rate a b → by_rate b c → by_rate a c.
Proof. unfold by_rate. apply Qle_trans. Qed.

Lemma sort_by_rate_strongly_sorted l : StronglySorted by_rate (sort_by_rate l).
Proof.
  apply Sorted_StronglySorted; [|apply sort_by_rate_sorted].
  intros a b c. apply by_rate_trans.
Qed.

Lemma StronglySorted_take {A} (R : A → A → Prop) n l :
  StronglySorted R l → StronglySorted R (take n l).
Proof.
  intros Hs. revert n. induction Hs as [|x l Hs IH Hall]; intros [|n]; simpl;
    try constructor; auto.
  apply Forall_forall. intros y Hy. rewrite Forall_forall in Hall.
  apply Hall. by apply (subseteq_take n l).
Qed.

Lemma StronglySorted_split {A} (R : A → A → Prop) n l x y :
  StronglySorted R l → x ∈ take n l → y ∈ drop n l → R x y.
Proof.
  intros Hs. revert n. induction Hs as [|z l Hs IH Hall]; intros [|n]; simpl.
  - by intros ?%elem_of_nil.
  - by intros ?%elem_of_nil.
  - by intros ?%elem_of_nil.
  - intros [->|Hx]%elem_of_cons Hy; [|by eapply IH].
    rewrite Forall_forall in Hall. apply Hall. by apply (subseteq_drop n l).
Qed.

Lemma StronglySorted_drop {A} (R : A → A → Prop) n l :
  StronglySorted R l → StronglySorted R (drop n l).
Proof.
  intros Hs. revert n. induction Hs as [|x l Hs IH Hall]; intros [|n]; simpl;
    try constructor; auto.
Qed.

Lemma StronglySorted_reverse {A} (R : A → A → Prop) l :
  StronglySorted R l → StronglySorted (flip R) (reverse l).
Proof.
  induction 1 as [|x l Hs IH Hall]; [constructor|].
  rewrite reverse_cons. apply StronglySorted_app_2; [|done|repeat constructor].
  intros a b Ha Hb. apply list_elem_of_singleton in Hb as ->.
  rewrite elem_of_reverse in Ha. rewrite Forall_forall in Hall.
  by apply Hall.
Qed.

Lemma NoDup_fmap_inj {A B} (f : A → B) l x y :
  NoDup (f <$> l) → x ∈ l → y ∈ l → f x = f y → x = y.
Proof.
  induction l as [|z l IH]; [by intros _ ?%elem_of_nil|].
  rewrite fmap_cons, NoDup_cons.
  intros [Hz Hnd] [->|Hx]%elem_of_cons [->|Hy]%elem_of_cons Hf; auto.
  - destruct Hz. rewrite Hf. by apply list_elem_of_fmap_2.
  - destruct Hz. rewrite <- Hf. by apply list_elem_of_fmap_2.
Qed.

Lemma person_item_names headers headersISO cols m :
  item_name <$> (m ≫= person_item headers headersISO cols) `sublist_of` m.*1.
Proof.
  induction m as [|[nm rs] m IH]; [done|].
  rewrite bind_cons, fmap_app. simpl.
  destruct (person_sets headers headersISO cols rs) as [E A].
  destruct (size E =? 0)%nat; simpl.
  - by apply sublist_cons.
  - by apply sublist_skip.
Qed.

Section RankingProperties.

Variable Cf : N → bool.

Lemma refreshWorstAttendance_sorted payload source :
  StronglySorted by_rate (refreshWorstAttendance Cf payload source).
Proof.
  unfold refreshWorstAttendance.
  destruct (gasPayloadToRows _ _ _) as [headers gasRows].
  destruct (_ || _); [constructor|apply sort_by_rate_strongly_sorted].
Qed.

(** X14.  The two selections shown on the dashboard, for the list the ranking
    leaves in [attAll]: each holds five entries, or all if there are fewer;
    the worst five ascend by rate and no entry left out has a lower rate
    than one of them; the best five descend by rate and no entry left out
    has a higher rate than one of them. *)
Theorem attWorst5_attBest5_extremes (payload : GasPayload) (source : jsstring) :
  let attAll := refreshWorstAttendance Cf payload source in
  length (attWorst5 attAll) = (length attAll `min` 5)%nat
  ∧ length (attBest5 attAll) = (length attAll `min` 5)%nat
  ∧ StronglySorted by_rate (attWorst5 attAll)
  ∧ StronglySorted (flip by_rate) (attBest5 attAll)
  ∧ (∀ w x, w ∈ attWorst5 attAll → x ∈ attAll → x ∉ attWorst5 attAll →
            by_rate w x)
  ∧ (∀ b x, b ∈ attBest5 attAll → x ∈ attAll → x ∉ attBest5 attAll →
            by_rate x b).
Proof.
  intros attAll.
  pose proof (refreshWorstAttendance_sorted payload source) as Hs.
  fold attAll in Hs.
  assert (attBest5 attAll = reverse (drop (length attAll - 5) attAll)) as Hbest.
  { unfold attBest5. destruct attAll; done. }
  rewrite Hbest. unfold attWorst5.
  repeat apply conj.
  - rewrite length_take. lia.
  - rewrite length_reverse, length_drop. lia.
  - by apply StronglySorted_take.
  - by apply StronglySorted_reverse, StronglySorted_drop.
  - intros w x Hw Hx Hnx.
    rewrite <- (take_drop 5 attAll) in Hx.
    apply elem_of_app in Hx as [Hx|Hx]; [done|].
    by apply (StronglySorted_split by_rate 5 attAll).
  - intros b x Hb Hx Hnx. rewrite elem_of_reverse in Hb, Hnx.
    rewrite <- (take_drop (length attAll - 5) attAll) in Hx.
    apply elem_of_app in Hx as [Hx|Hx]; [|done].
    by apply (StronglySorted_split by_rate (length attAll - 5) attAll).
Qed.

(** X15.  The ranking holds one entry per employee name: names and ids do not
    repeat, every id is the name after the prefix [att_], and every name is
    the name [getNameFromRow] reads from a row the normalizer emitted for
    the source sheet. *)
Theorem refreshWorstAttendance_one_entry_per_name (payload : GasPayload)
    (source : jsstring) :
  let attAll := refreshWorstAttendance Cf payload source in
  NoDup (item_name <$> attAll)
  ∧ NoDup (item_id <$> attAll)
  ∧ Forall (λ it,
      item_id it = js "att_" ++ item_name it
      ∧ item_name it
        ∈ getNameFromRow
          <$> (gasPayloadToRows Cf payload (worstOptions source)).2) attAll.
Proof.
  intros attAll.
  assert (Forall (λ it,
      item_id it = js "att_" ++ item_name it
      ∧ item_name it
        ∈ getNameFromRow
          <$> (gasPayloadToRows Cf payload (worstOptions source)).2) attAll)
    as Hall.
  { apply Forall_forall. intros it Hit. subst attAll.
    pose proof (refreshWorstAttendance_group Cf payload source it Hit) as Hg.
    apply refreshWorstAttendance_items in Hit as ([nm rs] & Hentry & Hit).
    pose proof Hit as Hit'. apply person_item_elem in Hit' as (Hnm & _).
    split.
    - unfold person_item in Hit.
      destruct (person_sets _ _ _ rs) as [E A].
      destruct (size E =? 0)%nat; [by apply elem_of_nil in Hit|].
      apply list_elem_of_singleton in Hit as ->. done.
    - destruct (byName_spec (gasPayloadToRows Cf payload (worstOptions source)).2)
        as (_ & Hrs & _).
      specialize (Hrs nm rs Hentry).
      unfold person_item in Hit.
      destruct (person_sets _ _ _ rs) as [E A] eqn:HE.
      destruct (size E =? 0)%nat eqn:Hz; [by apply elem_of_nil in Hit|].
      destruct rs as [|r rs].
      { unfold person_sets in HE. simpl in HE. injection HE as <- <-. done. }
      assert (r ∈ filter (λ r, getNameFromRow r = nm)
                    (gasPayloadToRows Cf payload (worstOptions source)).2)
        as Hr by (rewrite <- Hrs; by left).
      apply list_elem_of_filter in Hr as [Hrn Hr].
      rewrite Hnm, <- Hrn. apply list_elem_of_fmap. eauto. }
  assert (NoDup (item_name <$> attAll)) as Hnames.
  { subst attAll. unfold refreshWorstAttendance.
    destruct (gasPayloadToRows Cf payload (worstOptions source))
      as [headers gasRows] eqn:Hrows.
    destruct (_ || _); [constructor|].
    rewrite (sort_by_rate_perm _).
    eapply sublist_NoDup; [|apply person_item_names].
    apply byName_spec. }
  split; [done|]. split; [|done].
  apply NoDup_fmap_2_strong; [|by apply NoDup_fmap_1 in Hnames].
  intros a b Ha Hb Hid. rewrite Forall_forall in Hall.
  destruct (Hall a Ha) as [Hia _], (Hall b Hb) as [Hib _].
  rewrite Hia, Hib in Hid. apply (inj (app _)) in Hid.
  by apply (NoDup_fmap_inj item_name attAll).
Qed.

End RankingProperties.

(** ** Inferred date columns *)

Lemma digit_not_space c : (48 <=? c) && (c <=? 57) = true → is_space c = false.
Proof.
  intros [H1 H2]%andb_true_iff. apply N.leb_le in H1, H2.
  destruct (is_space c) eqn:E; [|done]. unfold is_space in E.
  rewrite !orb_true_iff, !andb_true_iff, !N.leb_le, !N.eqb_eq in E. lia.
Qed.

Lemma ISO_DATE_RE_trim s : ISO_DATE_RE s = true → trim s = s ∧ s ≠ [].
Proof.
  unfold ISO_DATE_RE.
  destruct s as [|y1 [|y2 [|y3 [|y4 [|h1 [|m1 [|m2 [|h2 [|d1 [|d2 [|]]]]]]]]]]];
    try done.
  rewrite !andb_true_iff. intros H. destruct_and!.
  assert (is_space y1 = false) as Hy1
    by (apply digit_not_space, andb_true_iff; by split).
  assert (is_space d2 = false) as Hd2
    by (apply digit_not_space, andb_true_iff; by split).
  split; [|done]. unfold trim. cbn [trimStart]. rewrite Hy1.
  unfold trimEnd. change (reverse [y1; y2; y3; y4; h1; m1; m2; h2; d1; d2])
    with [d2; d1; h2; m2; m1; h1; y4; y3; y2; y1].
  cbn [trimStart]. rewrite Hd2. done.
Qed.

Lemma inferred_cols_elem (p : jsstring → bool) (l : list jsstring) (ci : Z) :
  ci ∈ filter (λ i, (0 <=? i)%Z)
         (imap (λ i iso, if p iso then Z.of_nat i else (-1)%Z) l)
  ↔ ∃ iso, index l ci = Some iso ∧ p iso = true.
Proof.
  rewrite list_elem_of_filter, elem_of_lookup_imap. split.
  - intros (Hpos & i & iso & -> & Hi). exists iso.
    destruct (p iso); [|done]. split; [|done].
    unfold index. destruct (Z.ltb_spec (Z.of_nat i) 0); [lia|].
    by rewrite Nat2Z.id.
  - intros (iso & Hi & Hp). unfold index in Hi.
    destruct (Z.ltb_spec ci 0); [done|]. split.
    + apply Is_true_true, Z.leb_le. lia.
    + exists (Z.to_nat ci), iso. rewrite Hp. split; [lia|done].
Qed.

Lemma inferred_cols_sorted (p : jsstring → bool) (l : list jsstring) (k : nat) :
  StronglySorted Z.lt
    (filter (λ i, (0 <=? i)%Z)
       (imap (λ i iso, if p iso then Z.of_nat (k + i) else (-1)%Z) l))
  ∧ Forall (λ ci, Z.of_nat k ≤ ci)%Z
      (filter (λ i, (0 <=? i)%Z)
         (imap (λ i iso, if p iso then Z.of_nat (k + i) else (-1)%Z) l)).
Proof.
  revert k. induction l as [|iso l IH]; intros k.
  - split; constructor.
  - cbn [imap].
    assert (imap ((λ i iso, if p iso then Z.of_nat (k + i) else (-1)%Z) ∘ S) l
            = imap (λ i iso, if p iso then Z.of_nat (S k + i) else (-1)%Z) l)
      as -> by (apply imap_ext; intros i x _; simpl; by rewrite Nat.add_succ_r).
    destruct (IH (S k)) as [Hs Hall].
    assert (Forall (λ ci, Z.of_nat k < ci)%Z
              (filter (λ i, (0 <=? i)%Z)
                 (imap (λ i iso, if p iso then Z.of_nat (S k + i) else (-1)%Z) l)))
      as Hlt by (eapply Forall_impl; [exact Hall|]; simpl; intros; lia).
    destruct (p iso).
    + rewrite filter_cons_True by (apply Is_true_true, Z.leb_le; lia).
      rewrite Nat.add_0_r. split.
      * by constructor.
      * constructor; [lia|]. eapply Forall_impl; [exact Hlt|].
        simpl. intros; lia.
    + rewrite filter_cons_False by (intros H; by apply Is_true_true in H).
      split; [done|]. eapply Forall_impl; [exact Hlt|]. simpl. intros; lia.
Qed.

(** X16.  When the payload lists no date columns, the columns used instead are
    exactly the indices whose [headersISO] entry is a date of the form
    yyyy-mm-dd, in ascending order, and the date identity of such a column
    is that entry, whatever its header says. *)
Theorem effectiveDateCols_inferred (payload : GasPayload) :
  default [] (payload_dateCols payload) = [] →
  let headersISO := default [] (payload_headersISO payload) in
  StronglySorted Z.lt (effectiveDateCols payload)
  ∧ (∀ ci, ci ∈ effectiveDateCols payload ↔
           ∃ iso, index headersISO ci = Some iso ∧ ISO_DATE_RE iso = true)
  ∧ (∀ ci hk, ci ∈ effectiveDateCols payload →
              index headersISO ci = Some (dateIdentity headersISO hk ci)).
Proof.
  intros Hnone headersISO.
  assert (effectiveDateCols payload
          = filter (λ i, (0 <=? i)%Z)
              (imap (λ i iso, if truthy iso && ISO_DATE_RE iso
                              then Z.of_nat i else (-1)%Z) headersISO)) as ->.
  { unfold effectiveDateCols. rewrite Hnone. fold headersISO. simpl.
    by destruct headersISO. }
  assert (∀ ci,
    ci ∈ filter (λ i, (0 <=? i)%Z)
           (imap (λ i iso, if truthy iso && ISO_DATE_RE iso
                           then Z.of_nat i else (-1)%Z) headersISO)
    ↔ ∃ iso, index headersISO ci = Some iso ∧ ISO_DATE_RE iso = true) as Hel.
  { intros ci. rewrite (inferred_cols_elem (λ iso, truthy iso && ISO_DATE_RE iso)).
    split; intros (iso & Hi & Hp); exists iso; split; try done.
    - by apply andb_true_iff in Hp as [_ ?].
    - apply andb_true_iff. split; [|done].
      apply truthy_true. by apply ISO_DATE_RE_trim. }
  repeat apply conj.
  - apply (inferred_cols_sorted (λ iso, truthy iso && ISO_DATE_RE iso)
             headersISO 0).
  - exact Hel.
  - intros ci hk (iso & Hi & Hre)%Hel. rewrite Hi. f_equal.
    unfold dateIdentity. rewrite Hi. simpl.
    destruct (ISO_DATE_RE_trim iso Hre) as [-> Hne].
    by apply truthy_true in Hne as ->.
Qed.


Lemma effectiveDateCols_inferred_witness :
  default [] (payload_dateCols inferred_payload) = []
  ∧ (let headersISO := default [] (payload_headersISO inferred_payload) in
     StronglySorted Z.lt (effectiveDateCols inferred_payload)
     ∧ (∀ ci, ci ∈ effectiveDateCols inferred_payload ↔
              ∃ iso, index headersISO ci = Some iso ∧ ISO_DATE_RE iso = true)
     ∧ (∀ ci hk, ci ∈ effectiveDateCols inferred_payload →
                 index headersISO ci = Some (dateIdentity headersISO hk ci))).
Proof.
  split; [reflexivity|].
  exact (effectiveDateCols_inferred inferred_payload eq_refl).
Defined.

Example inferred_columns_sample :
  effectiveDateCols inferred_payload = [1; 3]%Z.
Proof. vm_compute. reflexivity. Qed.

(** ** The sheet-query cache over several calls *)

Section CacheFlows.

Import QueryCache.




End CacheFlows.


(** *** Cache keys *)

Lemma bar_split (a a' b b' : jsstring) :
  124 ∉ a → 124 ∉ a' → a ++ 124 :: b = a' ++ 124 :: b' → a = a' ∧ b = b'.
Proof.
  revert a'. induction a as [|x a IH]; intros [|x' a'] Ha Ha'; simpl.
  - by intros [= ->].
  - intros [= <- _]. destruct Ha'. by left.
  - intros [= -> _]. destruct Ha. by left.
  - intros [= -> H]. destruct (IH a') as [-> ->]; try done.
    + intros Hin. apply Ha. by right.
    + intros Hin. apply Ha'. by right.
Qed.

(** X19.  Two sheet queries share a cache entry exactly when they agree on the
    warehouse, the sheet and the trimmed name, as long as no warehouse or
    sheet name contains the separator of the key. *)
Theorem cacheKey_separates (base w s w' s' : jsstring) (n n' : option jsstring) :
  124 ∉ w → 124 ∉ w' → 124 ∉ s → 124 ∉ s' →
  QueryCache.cacheKey base w s n = QueryCache.cacheKey base w' s' n'
  ↔ w = w' ∧ s = s' ∧ trim (String_cell n) = trim (String_cell n').
Proof.
  intros Hw Hw' Hs Hs'. unfold QueryCache.cacheKey.
  change (js "|") with [124]. split.
  - intros H. apply app_inv_head in H. simpl in H. injection H as H.
    apply bar_split in H as [-> H]; [|done..].
    apply bar_split in H as [-> H]; done.
  - by intros (-> & -> & ->).
Qed.

Lemma cacheKey_separates_witness :
  (124 ∉ js "TAO1") ∧ (124 ∉ js "TAO1") ∧ (124 ∉ js "班表")
  ∧ (124 ∉ js "出勤記錄")
  ∧ (QueryCache.cacheKey sample_base (js "TAO1") (js "班表") None
     = QueryCache.cacheKey sample_base (js "TAO1") (js "出勤記錄") (Some (js " "))
     ↔ js "TAO1" = js "TAO1" ∧ js "班表" = js "出勤記錄"
       ∧ trim (String_cell None) = trim (String_cell (Some (js " ")))).
Proof.
  assert (124 ∉ js "TAO1") as H1
    by (apply (bool_decide_unpack (124 ∉ js "TAO1")); vm_compute; exact I).
  assert (124 ∉ js "班表") as H2
    by (apply (bool_decide_unpack (124 ∉ js "班表")); vm_compute; exact I).
  assert (124 ∉ js "出勤記錄") as H3
    by (apply (bool_decide_unpack (124 ∉ js "出勤記錄")); vm_compute; exact I).
  split; [exact H1|]. split; [exact H1|]. split; [exact H2|].
  split; [exact H3|].
  exact (cacheKey_separates sample_base (js "TAO1") (js "班表") (js "TAO1")
           (js "出勤記錄") None (Some (js " ")) H1 H1 H2 H3).
Defined.

(** With a separator inside a name two different queries do share a key. *)
Example cacheKey_collision :
  QueryCache.cacheKey sample_base (js "A|B") (js "C") None
  = QueryCache.cacheKey sample_base (js "A") (js "B|C") None.
Proof. vm_compute. reflexivity. Qed.

(** ** Login verification *)

Section LoginFlows.

Import VerifyLogin.


End LoginFlows.


(** ** The source sheet of the ranking *)

Lemma or_else_cases a b :
  (a ≠ [] ∧ or_else a b = a) ∨ (a = [] ∧ or_else a b = b).
Proof. destruct a; [right|left]; done. Qed.

Lemma pickFirst_cases pred pages :
  (pickFirst pred pages = []
   ∧ (∀ p, p ∈ pages → pred (trim p) = true → p = []))
  ∨ (pickFirst pred pages ∈ pages
     ∧ pred (trim (pickFirst pred pages)) = true
     ∧ List.find (λ p, pred (trim p)) pages = Some (pickFirst pred pages)).
Proof.
  unfold pickFirst. induction pages as [|p pages IH]; simpl.
  - left. split; [done|]. by intros p ?%elem_of_nil.
  - destruct (pred (trim p)) eqn:Hp; simpl.
    + right. split; [by left|]. done.
    + destruct IH as [[Hn Hall]|(Hin & Hpred & Hf)].
      * left. split; [done|].
        intros q [->|Hq]%elem_of_cons Hq'; [congruence|by apply Hall].
      * right. split; [by right|]. done.
Qed.

Lemma includes_nonempty needle s :
  needle ≠ [] → includes needle (trim s) = true → s ≠ [].
Proof.
  intros Hn Hi ->. change (trim []) with (@nil N) in Hi.
  destruct needle; [done|]. by vm_compute in Hi.
Qed.

(** X21.  The sheet the ranking reads is never invented: [pickWorstSourceSheet]
    returns a member of the page list or the empty string, and the empty
    string only when no page mentions 出勤 or 班表.  A schedule sheet always
    wins: if some page contains 班表, the first such page is returned, for
    every warehouse. *)
Theorem pickWorstSourceSheet_prefers_schedule (wh : jsstring)
    (pages : list jsstring) :
  let r := pickWorstSourceSheet wh pages in
  (r ≠ [] → r ∈ pages)
  ∧ (r = [] → ∀ p, p ∈ pages →
       includes (js "班表") (trim p) = false
       ∧ includes (js "出勤") (trim p) = false)
  ∧ (∀ p, p ∈ pages → includes (js "班表") (trim p) = true →
          List.find (λ p, includes (js "班表") (trim p)) pages = Some r).
Proof.
  assert (∀ needle, needle ≠ [] →
    (pickFirst (includes needle) pages = []
     ∧ ∀ p, p ∈ pages → includes needle (trim p) = false)
    ∨ (pickFirst (includes needle) pages ≠ []
       ∧ pickFirst (includes needle) pages ∈ pages
       ∧ List.find (λ p, includes needle (trim p)) pages
         = Some (pickFirst (includes needle) pages))) as Hpick.
  { intros needle Hne.
    destruct (pickFirst_cases (includes needle) pages)
      as [[Hn Hall]|(Hin & Hpred & Hf)].
    - left. split; [done|]. intros p Hp.
      destruct (includes needle (trim p)) eqn:Hi; [|done].
      pose proof (Hall p Hp Hi) as ->.
      by apply (includes_nonempty needle []) in Hi.
    - right. split; [|done]. by apply (includes_nonempty needle) in Hpred. }
  assert (∀ b, or_else (String_cell (head pages)) b ≠ [] →
               or_else (String_cell (head pages)) b = b
               ∨ or_else (String_cell (head pages)) b ∈ pages) as Hhead.
  { intros b Hne. destruct pages as [|[|c p] pages]; simpl in *; auto.
    right. by left. }
  assert (js "班表" ≠ []) as N1 by done.
  assert (js "出勤紀律" ≠ []) as N2 by done.
  assert (js "出勤記錄" ≠ []) as N3 by done.
  assert (js "出勤" ≠ []) as N4 by done.
  intros r. subst r. unfold pickWorstSourceSheet.
  destruct (Hpick _ N1) as [[E1 A1]|(E1 & I1 & F1)];
    destruct (Hpick _ N2) as [[E2 A2]|(E2 & I2 & F2)];
    destruct (Hpick _ N3) as [[E3 A3]|(E3 & I3 & F3)];
    destruct (Hpick _ N4) as [[E4 A4]|(E4 & I4 & F4)];
    destruct (bool_decide (wh = js "TAO1") || bool_decide (wh = js "TA01"));
    repeat match goal with
    | H : pickFirst ?f pages = [] |- _ =>
      rewrite H; change (or_else [] ?b) with b
    | H : pickFirst ?f pages ≠ [] |- context [or_else (pickFirst ?f pages) ?b] =>
      destruct (or_else_cases (pickFirst f pages) b) as [[_ ->]|[? _]]; [|done]
    end;
    (split; [|split]);
    try done;
    try (intros Hr p Hp; split; [by apply A1|by apply A4]);
    try (intros p Hp Hi; rewrite (A1 p Hp) in Hi; done);
    try (intros Hr; destruct (Hhead [] Hr) as [Hr'|Hr']; [by rewrite Hr' in Hr|done]).
Qed.

(** ** The date range of the single-employee statistics *)

Lemma range_counts_prefix headers rows cols1 cols2 :
  cols1 `prefix_of` cols2 →
  ((range_counts headers rows cols1).1 ≤ (range_counts headers rows cols2).1)%nat
  ∧ ((range_counts headers rows cols1).2
     ≤ (range_counts headers rows cols2).2)%nat.
Proof.
  intros [rest ->]. rewrite range_counts_cols_app. unfold pair_add. simpl. lia.
Qed.

(** X22.  With dates to choose from, the columns [dateIndicesUpToEnd] hands to the
    range statistics are a non-empty initial segment of the sorted date
    list, ending at the first entry whose key is the chosen end date when
    there is one; so the days counted up to an end date never exceed the
    days counted over all dates. *)
Theorem dateIndicesUpToEnd_initial_segment (dateList : list DateEntry)
    (gasDateCols : list Z) (attEndDate : jsstring)
    (gasHeaders : list jsstring) (personRows : list GasRecordRow) :
  dateList ≠ [] →
  let upto := dateIndicesUpToEnd dateList gasDateCols attEndDate in
  let all := date_ci <$> dateList in
  upto `prefix_of` all
  ∧ upto ≠ []
  ∧ (∀ i d, attEndDate ≠ [] → dateList !! i = Some d →
            date_key d = attEndDate →
            (∀ j d', dateList !! j = Some d' → (j < i)%nat →
                     date_key d' ≠ attEndDate) →
            upto = take (S i) all)
  ∧ (shouldDays (computeForCols gasHeaders personRows upto)
     ≤ shouldDays (computeForCols gasHeaders personRows all))%nat
  ∧ (actDays (computeForCols gasHeaders personRows upto)
     ≤ actDays (computeForCols gasHeaders personRows all))%nat.
Proof.
  intros Hne upto all.
  assert (upto `prefix_of` all) as Hpre.
  { subst upto all. unfold dateIndicesUpToEnd.
    destruct dateList as [|d0 l]; [done|]. cbn [length Nat.ltb Nat.leb negb].
    destruct (truthy attEndDate); cbn [negb]; [|done].
    destruct (list_find _ _) as [[idx d]|]; [|done].
    rewrite fmap_take. apply prefix_take. }
  split; [done|]. split; [|split].
  - subst upto. unfold dateIndicesUpToEnd.
    destruct dateList as [|d0 l]; [done|]. cbn [length Nat.ltb Nat.leb negb].
    destruct (truthy attEndDate); cbn [negb]; [|done].
    destruct (list_find _ _) as [[idx d]|]; [|done].
    by rewrite Nat.add_1_r.
  - intros i d Hend Hi Hkey Hfirst. subst upto all.
    unfold dateIndicesUpToEnd.
    destruct dateList as [|d0 l] eqn:Hl; [done|].
    cbn [length Nat.ltb Nat.leb negb]. rewrite <- Hl in *.
    apply truthy_true in Hend. rewrite Hend. cbn [negb].
    assert (list_find (λ d, date_key d = attEndDate) dateList = Some (i, d))
      as ->.
    { apply list_find_Some. split; [done|]. split; [done|].
      intros j d' Hj Hlt. by apply (Hfirst j d'). }
    by rewrite Nat.add_1_r, fmap_take.
  - destruct (computeForCols_counts gasHeaders personRows upto) as [-> ->].
    destruct (computeForCols_counts gasHeaders personRows all) as [-> ->].
    by apply range_counts_prefix.
Qed.

Lemma dateIndicesUpToEnd_initial_segment_witness :
  sample_dateList ≠ []
  ∧ (let upto := dateIndicesUpToEnd sample_dateList [1; 2; 3]%Z
                   (js "2024-01-02") in
     let all := date_ci <$> sample_dateList in
     upto `prefix_of` all
     ∧ upto ≠ []
     ∧ (∀ i d, js "2024-01-02" ≠ [] → sample_dateList !! i = Some d →
               date_key d = js "2024-01-02" →
               (∀ j d', sample_dateList !! j = Some d' → (j < i)%nat →
                        date_key d' ≠ js "2024-01-02") →
               upto = take (S i) all)
     ∧ (shouldDays (computeForCols sample_headers [sample_record] upto)
        ≤ shouldDays (computeForCols sample_headers [sample_record] all))%nat
     ∧ (actDays (computeForCols sample_headers [sample_record] upto)
        ≤ actDays (computeForCols sample_headers [sample_record] all))%nat).
Proof.
  assert (sample_dateList ≠ []) as Hne by discriminate.
  split; [exact Hne|].
  exact (dateIndicesUpToEnd_initial_segment sample_dateList [1; 2; 3]%Z
           (js "2024-01-02") sample_headers [sample_record] Hne).
Defined.

Example dateIndicesUpToEnd_sample :
  dateIndicesUpToEnd sample_dateList [1; 2; 3]%Z (js "2024-01-02") = [1; 2]%Z
  ∧ dateIndicesUpToEnd sample_dateList [1; 2; 3]%Z (js "2024-02-01")
    = [1; 2; 3]%Z
  ∧ dateIndicesUpToEnd [] [1; 2; 3]%Z (js "2024-01-02") = [1; 2; 3]%Z.
Proof. repeat apply conj; vm_compute; reflexivity. Qed.

(** ** Date texts *)

Example guessISOFromText_samples :
  guessISOFromText (js "2024") (js " 2023/1/5 ") = js "2023-01-05"
  ∧ guessISOFromText (js "2024") (js "3-14") = js "2024-03-14"
  ∧ guessISOFromText (js "2024") (js "2022年 7月 9日") = js "2022-07-09"
  ∧ guessISOFromText (js "2024") (js "12月25日") = js "2024-12-25"
  ∧ guessISOFromText (js "2024") (js "2023/123/5") = js ""
  ∧ guessISOFromText (js "2024") (js "班表") = js ""
  ∧ fmtMDFromISO (js "2024-03-07") = js "3/7"
  ∧ fmtMDFromISO (js "3/7") = js "3/7".
Proof. repeat apply conj; vm_compute; reflexivity. Qed.

Lemma span_digits_spec max s :
  let '(d, r) := span_digits max s in
  s = d ++ r ∧ (length d ≤ max)%nat ∧ Forall (λ c, is_digit c = true) d.
Proof.
  revert s. induction max as [|k IH]; intros s; simpl.
  - destruct s; repeat split; constructor.
  - destruct s as [|c r]; [repeat split; solve [constructor|simpl; lia]|].
    destruct (is_digit c) eqn:Hc.
    + specialize (IH r). destruct (span_digits k r) as [d rest].
      destruct IH as (-> & Hlen & Hall). repeat split; simpl; [lia|].
      by constructor.
    + repeat split; [simpl; lia|constructor].
Qed.

Lemma is_digit_not_space c : is_digit c = true → is_space c = false.
Proof. apply digit_not_space. Qed.

(** The digits and separators an ISO date is made of. *)
Lemma ISO_DATE_RE_shape s :
  ISO_DATE_RE s = true ↔
  ∃ y1 y2 y3 y4 m1 m2 d1 d2,
    s = [y1; y2; y3; y4; 45; m1; m2; 45; d1; d2]
    ∧ Forall (λ c, is_digit c = true) [y1; y2; y3; y4; m1; m2; d1; d2].
Proof.
  split.
  - unfold ISO_DATE_RE.
    destruct s as [|y1 [|y2 [|y3 [|y4 [|h1 [|m1 [|m2 [|h2 [|d1 [|d2 [|]]]]]]]]]]];
      try done.
    fold (is_digit y1) (is_digit y2) (is_digit y3) (is_digit y4)
      (is_digit m1) (is_digit m2) (is_digit d1) (is_digit d2).
    rewrite !andb_true_iff, !N.eqb_eq. intros H. destruct_and!. subst.
    exists y1, y2, y3, y4, m1, m2, d1, d2. split; [done|].
    repeat constructor; done.
  - intros (y1 & y2 & y3 & y4 & m1 & m2 & d1 & d2 & -> & Hall).
    repeat match goal with
    | H : Forall _ (_ :: _) |- _ => apply Forall_cons in H as [? H]
    end.
    unfold ISO_DATE_RE.
    fold (is_digit y1) (is_digit y2) (is_digit y3) (is_digit y4)
      (is_digit m1) (is_digit m2) (is_digit d1) (is_digit d2).
    by repeat match goal with H : is_digit _ = true |- _ => rewrite H; clear H end.
Qed.

Lemma pad2_shape d :
  (0 < length d ≤ 2)%nat → Forall (λ c, is_digit c = true) d →
  ∃ a b, pad2 d = [a; b] ∧ is_digit a = true ∧ is_digit b = true
         ∧ Number_digits [a; b] = Number_digits d.
Proof.
  destruct d as [|a [|b [|]]]; simpl; try lia; intros _ Hall.
  - apply Forall_cons in Hall as [Ha _]. exists 48, a. done.
  - apply Forall_cons in Hall as [Ha Hall].
    apply Forall_cons in Hall as [Hb _]. exists a, b. done.
Qed.

Lemma ISO_built y mo d :
  length y = 4%nat → Forall (λ c, is_digit c = true) y →
  (0 < length mo ≤ 2)%nat → Forall (λ c, is_digit c = true) mo →
  (0 < length d ≤ 2)%nat → Forall (λ c, is_digit c = true) d →
  ISO_DATE_RE (y ++ js "-" ++ pad2 mo ++ js "-" ++ pad2 d) = true
  ∧ fmtMDFromISO (y ++ js "-" ++ pad2 mo ++ js "-" ++ pad2 d)
    = String_nat (Number_digits mo) ++ js "/" ++ String_nat (Number_digits d).
Proof.
  intros Hy Hyd Hmo Hmod Hd Hdd.
  destruct (pad2_shape mo Hmo Hmod) as (m1 & m2 & -> & Hm1 & Hm2 & <-).
  destruct (pad2_shape d Hd Hdd) as (d1 & d2 & -> & Hd1 & Hd2 & <-).
  destruct y as [|y1 [|y2 [|y3 [|y4 [|]]]]]; try done.
  repeat match goal with
  | H : Forall _ (_ :: _) |- _ => apply Forall_cons in H as [? H]
  end.
  change ([y1; y2; y3; y4] ++ js "-" ++ [m1; m2] ++ js "-" ++ [d1; d2])
    with [y1; y2; y3; y4; 45; m1; m2; 45; d1; d2].
  assert (ISO_DATE_RE [y1; y2; y3; y4; 45; m1; m2; 45; d1; d2] = true) as Hre.
  { apply ISO_DATE_RE_shape. exists y1, y2, y3, y4, m1, m2, d1, d2.
    split; [done|]. repeat constructor; done. }
  split; [done|]. unfold fmtMDFromISO. by rewrite Hre.
Qed.

Lemma match_ymd_spec t y mo d :
  match_ymd t = Some (y, mo, d) →
  length y = 4%nat ∧ Forall (λ c, is_digit c = true) y
  ∧ (0 < length mo ≤ 2)%nat ∧ Forall (λ c, is_digit c = true) mo
  ∧ (0 < length d ≤ 2)%nat ∧ Forall (λ c, is_digit c = true) d.
Proof.
  unfold match_ymd.
  pose proof (span_digits_spec 4 t) as H1.
  destruct (span_digits 4 t) as [y' r1]. destruct H1 as (_ & _ & Hy).
  destruct (Nat.eqb_spec (length y') 4); [|done]. cbn [negb andb].
  destruct r1 as [|c1 r2]; [done|]. destruct (is_date_sep c1); [|done]. cbn [negb andb].
  pose proof (span_digits_spec 2 r2) as H2.
  destruct (span_digits 2 r2) as [mo' r3]. destruct H2 as (_ & Hml & Hm).
  destruct (Nat.ltb_spec 0 (length mo')); [|done]. cbn [negb andb].
  destruct r3 as [|c2 r4]; [done|]. destruct (is_date_sep c2); [|done]. cbn [negb andb].
  pose proof (span_digits_spec 2 r4) as H3.
  destruct (span_digits 2 r4) as [d' r5]. destruct H3 as (_ & Hdl & Hd).
  destruct (Nat.ltb_spec 0 (length d')); [|done]. cbn [negb andb].
  destruct (truthy r5); [done|]. cbn [negb andb]. intros [= <- <- <-]. done.
Qed.

Lemma match_md_spec t mo d :
  match_md t = Some (mo, d) →
  (0 < length mo ≤ 2)%nat ∧ Forall (λ c, is_digit c = true) mo
  ∧ (0 < length d ≤ 2)%nat ∧ Forall (λ c, is_digit c = true) d.
Proof.
  unfold match_md.
  pose proof (span_digits_spec 2 t) as H2.
  destruct (span_digits 2 t) as [mo' r3]. destruct H2 as (_ & Hml & Hm).
  destruct (Nat.ltb_spec 0 (length mo')); [|done]. cbn [negb andb].
  destruct r3 as [|c2 r4]; [done|]. destruct (is_date_sep c2); [|done]. cbn [negb andb].
  pose proof (span_digits_spec 2 r4) as H3.
  destruct (span_digits 2 r4) as [d' r5]. destruct H3 as (_ & Hdl & Hd).
  destruct (Nat.ltb_spec 0 (length d')); [|done]. cbn [negb andb].
  destruct (truthy r5); [done|]. cbn [negb andb]. intros [= <- <-]. done.
Qed.

Lemma match_cjk_spec t y mo d :
  match_cjk t = Some (y, mo, d) →
  (∀ y', y = Some y' → length y' = 4%nat ∧ Forall (λ c, is_digit c = true) y')
  ∧ (0 < length mo ≤ 2)%nat ∧ Forall (λ c, is_digit c = true) mo
  ∧ (0 < length d ≤ 2)%nat ∧ Forall (λ c, is_digit c = true) d.
Proof.
  unfold match_cjk.
  pose proof (span_digits_spec 4 t) as H1.
  destruct (span_digits 4 t) as [y' r1]. destruct H1 as (_ & _ & Hy).
  set (sel := match r1 with
              | [] => (None, t)
              | c :: r2 =>
                if (length y' =? 4)%nat && (c =? 0x5E74) then (Some y', r2)
                else (None, t)
              end).
  assert (∀ y0, sel.1 = Some y0 →
                length y0 = 4%nat ∧ Forall (λ c, is_digit c = true) y0) as Hsel.
  { subst sel. destruct r1 as [|c r2]; [done|].
    destruct (Nat.eqb_spec (length y') 4); [|done].
    destruct (c =? 0x5E74); [|done]. cbn [negb andb]. by intros y0 [= <-]. }
  destruct sel as [year rest]. simpl in Hsel.
  pose proof (span_digits_spec 2 (trimStart rest)) as H2.
  destruct (span_digits 2 (trimStart rest)) as [mo' r3].
  destruct H2 as (_ & Hml & Hm).
  destruct (Nat.ltb_spec 0 (length mo')); [|done]. cbn [negb andb].
  destruct r3 as [|c2 r4]; [done|]. destruct (c2 =? 0x6708); [|done]. cbn [negb andb].
  pose proof (span_digits_spec 2 (trimStart r4)) as H3.
  destruct (span_digits 2 (trimStart r4)) as [d' r5].
  destruct H3 as (_ & Hdl & Hd).
  destruct (Nat.ltb_spec 0 (length d')); [|done]. cbn [negb andb].
  destruct r5 as [|c' [|]]; try done. destruct (c' =? 0x65E5); [|done].
  intros [= <- <- <-]. done.
Qed.

Lemma guessISOFromText_cases year s :
  guessISOFromText year s = []
  ∨ ∃ y mo d,
      guessISOFromText year s = y ++ js "-" ++ pad2 mo ++ js "-" ++ pad2 d
      ∧ (y = year ∨ (length y = 4%nat ∧ Forall (λ c, is_digit c = true) y))
      ∧ (0 < length mo ≤ 2)%nat ∧ Forall (λ c, is_digit c = true) mo
      ∧ (0 < length d ≤ 2)%nat ∧ Forall (λ c, is_digit c = true) d.
Proof.
  unfold guessISOFromText. destruct (truthy (trim s)); [|by left]. simpl.
  destruct (match_ymd (trim s)) as [[[y mo] d]|] eqn:E1.
  { right. exists y, mo, d.
    destruct (match_ymd_spec _ _ _ _ E1) as (? & ? & ? & ? & ? & ?).
    split; [done|]. split; [by right|]. done. }
  destruct (match_md (trim s)) as [[mo d]|] eqn:E2.
  { right. exists year, mo, d.
    destruct (match_md_spec _ _ _ E2) as (? & ? & ? & ?).
    split; [done|]. split; [by left|]. done. }
  destruct (match_cjk (trim s)) as [[[y mo] d]|] eqn:E3; [|by left].
  right. exists (default year y), mo, d. apply match_cjk_spec in E3.
  destruct E3 as (Hy & ?). split; [done|]. split; [|done].
  destruct y as [y'|]; [right; by apply Hy|by left].
Qed.

Lemma guessISOFromText_fixes_iso year s :
  ISO_DATE_RE s = true → guessISOFromText year s = s.
Proof.
  intros Hre. destruct (ISO_DATE_RE_trim s Hre) as [Ht Hne].
  apply ISO_DATE_RE_shape in Hre
    as (y1 & y2 & y3 & y4 & m1 & m2 & d1 & d2 & -> & Hall).
  repeat match goal with
  | H : Forall _ (_ :: _) |- _ => apply Forall_cons in H as [? H]
  end.
  unfold guessISOFromText. rewrite Ht. cbn [truthy negb].
  unfold match_ymd. cbn [span_digits].
  repeat match goal with H : is_digit _ = true |- _ => rewrite H; clear H end.
  reflexivity.
Qed.

(** X23.  In a year of four digits, what [guessISOFromText] returns is empty or a
    date of the form yyyy-mm-dd; a text that already has that form is
    returned unchanged, so guessing twice is guessing once. *)
Theorem guessISOFromText_iso_or_empty (year s : jsstring) :
  length year = 4%nat → Forall (λ c, is_digit c = true) year →
  (guessISOFromText year s = []
   ∨ ISO_DATE_RE (guessISOFromText year s) = true)
  ∧ (ISO_DATE_RE s = true → guessISOFromText year s = s)
  ∧ guessISOFromText year (guessISOFromText year s) = guessISOFromText year s.
Proof.
  intros Hlen Hyear.
  assert (guessISOFromText year s = []
          ∨ ISO_DATE_RE (guessISOFromText year s) = true) as Hshape.
  { destruct (guessISOFromText_cases year s)
      as [?|(y & mo & d & -> & Hy & Hmo & Hmod & Hd & Hdd)]; [by left|].
    right. apply ISO_built; try done.
    - by destruct Hy as [->|[? _]].
    - by destruct Hy as [->|[_ ?]]. }
  split; [done|]. split; [apply guessISOFromText_fixes_iso|].
  destruct Hshape as [->|Hre]; [done|]. by apply guessISOFromText_fixes_iso.
Qed.

Lemma guessISOFromText_iso_or_empty_witness :
  length (js "2024") = 4%nat
  ∧ Forall (λ c, is_digit c = true) (js "2024")
  ∧ ((guessISOFromText (js "2024") (js "7月9日") = []
      ∨ ISO_DATE_RE (guessISOFromText (js "2024") (js "7月9日")) = true)
     ∧ (ISO_DATE_RE (js "7月9日") = true →
        guessISOFromText (js "2024") (js "7月9日") = js "7月9日")
     ∧ guessISOFromText (js "2024") (guessISOFromText (js "2024") (js "7月9日"))
       = guessISOFromText (js "2024") (js "7月9日")).
Proof.
  assert (length (js "2024") = 4%nat) as Hlen by reflexivity.
  assert (Forall (λ c, is_digit c = true) (js "2024")) as Hyear
    by (vm_compute; repeat constructor).
  split; [exact Hlen|]. split; [exact Hyear|].
  exact (guessISOFromText_iso_or_empty (js "2024") (js "7月9日") Hlen Hyear).
Defined.

(** X24.  A month/day text, with one or two digits each and either separator,
    survives the way through [guessISOFromText] and [fmtMDFromISO] up to
    leading zeros: the label shown is month/day as numbers. *)
Theorem fmtMDFromISO_guessISOFromText (year mo d : jsstring) (sep : N) :
  length year = 4%nat → Forall (λ c, is_digit c = true) year →
  (0 < length mo ≤ 2)%nat → Forall (λ c, is_digit c = true) mo →
  (0 < length d ≤ 2)%nat → Forall (λ c, is_digit c = true) d →
  is_date_sep sep = true →
  fmtMDFromISO (guessISOFromText year (mo ++ sep :: d))
  = String_nat (Number_digits mo) ++ js "/" ++ String_nat (Number_digits d).
Proof.
  intros Hlen Hyear Hmo Hmod Hd Hdd Hsep.
  assert (guessISOFromText year (mo ++ sep :: d)
          = year ++ js "-" ++ pad2 mo ++ js "-" ++ pad2 d) as ->;
    [|by apply ISO_built].
  assert (is_digit sep = false) as Hsd.
  { unfold is_date_sep in Hsep. apply orb_true_iff in Hsep.
    rewrite !N.eqb_eq in Hsep. by destruct Hsep as [->| ->]. }
  assert (∀ c, is_digit c = true → is_space c = false) as Hsp
    by apply is_digit_not_space.
  unfold guessISOFromText.
  destruct mo as [|a [|b [|]]]; simpl in Hmo; try lia;
    destruct d as [|c [|e [|]]]; simpl in Hd; try lia;
    repeat match goal with
    | H : Forall _ (_ :: _) |- _ => apply Forall_cons in H as [? H]
    end;
    repeat match goal with
    | H : is_digit ?x = true |- _ =>
      pose proof (Hsp x H); revert H
    end; intros;
    unfold trim, trimEnd; cbn [app trimStart reverse rev_append];
    repeat match goal with
    | H : is_space _ = false |- _ => rewrite H
    end;
    cbn [app trimStart reverse rev_append truthy negb];
    unfold reverse; cbn [rev_append trimStart];
    repeat match goal with
    | H : is_space _ = false |- _ => rewrite H
    end;
    cbn [rev_append truthy negb];
    unfold match_ymd, match_md; cbn [span_digits];
    repeat match goal with
    | H : is_digit _ = _ |- _ => rewrite H
    end;
    cbn [span_digits length Nat.eqb negb];
    repeat match goal with
    | H : is_digit _ = _ |- _ => rewrite H
    end;
    cbn [span_digits length Nat.eqb Nat.ltb Nat.leb negb andb truthy];
    rewrite ?Hsep; cbn [negb andb]; reflexivity.
Qed.

Lemma fmtMDFromISO_guessISOFromText_witness :
  length (js "2024") = 4%nat
  ∧ Forall (λ c, is_digit c = true) (js "2024")
  ∧ (0 < length (js "03") ≤ 2)%nat
  ∧ Forall (λ c, is_digit c = true) (js "03")
  ∧ (0 < length (js "7") ≤ 2)%nat
  ∧ Forall (λ c, is_digit c = true) (js "7")
  ∧ is_date_sep 47 = true
  ∧ fmtMDFromISO (guessISOFromText (js "2024") (js "03" ++ 47 :: js "7"))
    = String_nat (Number_digits (js "03")) ++ js "/"
      ++ String_nat (Number_digits (js "7")).
Proof.
  assert (length (js "2024") = 4%nat) as Hlen by reflexivity.
  assert (Forall (λ c, is_digit c = true) (js "2024")) as Hyear
    by (vm_compute; repeat constructor).
  assert (0 < length (js "03") ≤ 2)%nat as Hmo by (vm_compute; lia).
  assert (Forall (λ c, is_digit c = true) (js "03")) as Hmod
    by (vm_compute; repeat constructor).
  assert (0 < length (js "7") ≤ 2)%nat as Hd by (vm_compute; lia).
  assert (Forall (λ c, is_digit c = true) (js "7")) as Hdd
    by (vm_compute; repeat constructor).
  assert (is_date_sep 47 = true) as Hsep by reflexivity.
  repeat (split; [assumption|]).
  exact (fmtMDFromISO_guessISOFromText (js "2024") (js "03") (js "7") 47
           Hlen Hyear Hmo Hmod Hd Hdd Hsep).
Defined.

(** ** Export *)

Example toCsvCell_samples :
  toCsvCell (Some (js "王小明")) = js "王小明"
  ∧ toCsvCell (Some (js "a,b")) = [34] ++ js "a,b" ++ [34]
  ∧ toCsvCell (Some [97; 34; 98]) = [34; 97; 34; 34; 98; 34]
  ∧ toCsvCell None = []
  ∧ escapeHtml (js "<a href='x'>&</a>")
    = js "&lt;a href=&#39;x&#39;&gt;&amp;&lt;/a&gt;".
Proof. repeat apply conj; vm_compute; reflexivity. Qed.

Lemma replace_unit_cons c r x s :
  replace_unit c r (x :: s)
  = (if x =? c then r else [x]) ++ replace_unit c r s.
Proof. done. Qed.

Lemma replace_unit_app c r s1 s2 :
  replace_unit c r (s1 ++ s2) = replace_unit c r s1 ++ replace_unit c r s2.
Proof. unfold replace_unit. apply bind_app. Qed.

Lemma replace_unit_absent c r s :
  Forall (λ x, x ≠ c) s → replace_unit c r s = s.
Proof.
  induction 1 as [|x s Hx _ IH]; [done|].
  rewrite replace_unit_cons, IH. apply N.eqb_neq in Hx. by rewrite Hx.
Qed.

(** *** HTML *)

Lemma escapeHtml_cons c s : escapeHtml (c :: s) = html_entity c ++ escapeHtml s.
Proof.
  unfold escapeHtml, html_entity.
  rewrite (replace_unit_cons 38).
  rewrite !replace_unit_app.
  f_equal.
  destruct (N.eqb_spec c 38) as [->|H38]; [vm_compute; reflexivity|].
  destruct (N.eqb_spec c 60) as [->|H60]; [vm_compute; reflexivity|].
  destruct (N.eqb_spec c 62) as [->|H62]; [vm_compute; reflexivity|].
  destruct (N.eqb_spec c 34) as [->|H34]; [vm_compute; reflexivity|].
  destruct (N.eqb_spec c 39) as [->|H39]; [vm_compute; reflexivity|].
  rewrite !replace_unit_cons.
  apply N.eqb_neq in H60, H62, H34, H39.
  change (replace_unit ?a ?b []) with (@nil N).
  rewrite H60. cbn [app]. rewrite replace_unit_cons, H62. cbn [app].
  change (replace_unit ?a ?b []) with (@nil N).
  rewrite replace_unit_cons, H34. cbn [app].
  change (replace_unit ?a ?b []) with (@nil N).
  rewrite replace_unit_cons, H39. done.
Qed.

Lemma escapeHtml_single_pass s : escapeHtml s = s ≫= html_entity.
Proof.
  induction s as [|c s IH]; [done|]. by rewrite escapeHtml_cons, IH.
Qed.

Lemma html_entity_clean c :
  Forall (λ x, x ≠ 60 ∧ x ≠ 62 ∧ x ≠ 34 ∧ x ≠ 39) (html_entity c).
Proof.
  unfold html_entity.
  destruct (N.eqb_spec c 38); [vm_compute; repeat constructor; done|].
  destruct (N.eqb_spec c 60); [vm_compute; repeat constructor; done|].
  destruct (N.eqb_spec c 62); [vm_compute; repeat constructor; done|].
  destruct (N.eqb_spec c 34); [vm_compute; repeat constructor; done|].
  destruct (N.eqb_spec c 39); [vm_compute; repeat constructor; done|].
  repeat constructor; done.
Qed.

(** An entity starts with an ampersand and ends with a semicolon; a unit
    that is kept is neither. *)
Lemma html_entity_shape c :
  (html_entity c = [c] ∧ c ≠ 38)
  ∨ (∃ body, html_entity c = 38 :: body ++ [59]
             ∧ Forall (λ x, x ≠ 38 ∧ x ≠ 59) body
             ∧ c = (if bool_decide (body = js "amp") then 38
                    else if bool_decide (body = js "lt") then 60
                    else if bool_decide (body = js "gt") then 62
                    else if bool_decide (body = js "quot") then 34
                    else 39)).
Proof.
  unfold html_entity.
  destruct (N.eqb_spec c 38) as [->|?];
    [right; exists (js "amp"); vm_compute; repeat constructor; done|].
  destruct (N.eqb_spec c 60) as [->|?];
    [right; exists (js "lt"); vm_compute; repeat constructor; done|].
  destruct (N.eqb_spec c 62) as [->|?];
    [right; exists (js "gt"); vm_compute; repeat constructor; done|].
  destruct (N.eqb_spec c 34) as [->|?];
    [right; exists (js "quot"); vm_compute; repeat constructor; done|].
  destruct (N.eqb_spec c 39) as [->|?];
    [right; exists (js "#39"); vm_compute; repeat constructor; done|].
  by left.
Qed.

Lemma entity_body_split (b b' r r' : jsstring) :
  Forall (λ x, x ≠ 38 ∧ x ≠ 59) b → Forall (λ x, x ≠ 38 ∧ x ≠ 59) b' →
  b ++ 59 :: r = b' ++ 59 :: r' → b = b' ∧ r = r'.
Proof.
  intros Hb. revert b'. induction Hb as [|x b [_ Hx] _ IH];
    intros b' Hb'; destruct Hb' as [|x' b' [_ Hx'] Hb']; simpl.
  - by intros [= ->].
  - by intros [= <- _].
  - by intros [= -> _].
  - intros [= -> H]. by destruct (IH b' Hb' H) as [-> ->].
Qed.

Lemma html_bind_inj s s' : s ≫= html_entity = s' ≫= html_entity → s = s'.
Proof.
  revert s'. induction s as [|c s IH]; intros [|c' s'].
  - done.
  - rewrite bind_cons.
    destruct (html_entity_shape c') as [[-> _]|(b & -> & _)]; done.
  - rewrite bind_cons.
    destruct (html_entity_shape c) as [[-> _]|(b & -> & _)]; done.
  - rewrite !bind_cons.
    destruct (html_entity_shape c) as [[-> Hc]|(b & -> & Hb & Hcb)],
      (html_entity_shape c') as [[-> Hc']|(b' & -> & Hb' & Hcb')]; simpl.
    + intros [= -> H]. f_equal. by apply IH.
    + intros [= -> _]. done.
    + intros [= <- _]. done.
    + intros [= H]. rewrite <- !app_assoc in H. simpl in H.
      destruct (entity_body_split b b' _ _ Hb Hb' H) as [-> H'].
      rewrite Hcb, Hcb'. f_equal. by apply IH.
Qed.

(** X25.  The five replacements of [escapeHtml], done one after the other, have
    the effect of one pass that writes an entity for each of the five
    characters: no text is escaped twice.  The result holds no angle
    bracket and no quote, and different texts stay different. *)
Theorem escapeHtml_escapes_once (s : jsstring) :
  escapeHtml s = s ≫= html_entity
  ∧ Forall (λ x, x ≠ 60 ∧ x ≠ 62 ∧ x ≠ 34 ∧ x ≠ 39) (escapeHtml s)
  ∧ (∀ s', escapeHtml s = escapeHtml s' → s = s').
Proof.
  split; [apply escapeHtml_single_pass|]. split.
  - rewrite escapeHtml_single_pass. induction s as [|c s IH]; [constructor|].
    rewrite bind_cons. apply Forall_app. split; [apply html_entity_clean|done].
  - intros s'. rewrite !escapeHtml_single_pass. apply html_bind_inj.
Qed.

(** *** Comma-separated values *)

Lemma csv_special_false c :
  csv_special c = false → c ≠ 44 ∧ c ≠ 34.
Proof.
  unfold csv_special. rewrite !orb_false_iff, !N.eqb_neq.
  by intros [[_ ?] ?].
Qed.

Lemma read_bare cur p tail :
  Forall (λ c, c ≠ 44) p → tail = [] ∨ (∃ more, tail = 44 :: more) →
  read_csv InBare cur (p ++ tail)
  = match tail with
    | [] => [cur ++ p]
    | _ :: more => (cur ++ p) :: read_csv AtStart [] more
    end.
Proof.
  intros Hp Htail. revert cur. induction Hp as [|c p Hc _ IH]; intros cur.
  - rewrite app_nil_r. destruct Htail as [->|[more ->]]; done.
  - simpl. apply N.eqb_neq in Hc. rewrite Hc, IH.
    destruct tail; by rewrite <- app_assoc.
Qed.

Lemma read_quoted cur x tail :
  tail = [] ∨ (∃ more, tail = 44 :: more) →
  read_csv InQuoted cur (replace_unit 34 [34; 34] x ++ 34 :: tail)
  = match tail with
    | [] => [cur ++ x]
    | _ :: more => (cur ++ x) :: read_csv AtStart [] more
    end.
Proof.
  intros Htail. revert cur. induction x as [|c x IH]; intros cur.
  - rewrite app_nil_r. destruct Htail as [->|[more ->]]; done.
  - rewrite replace_unit_cons. destruct (N.eqb_spec c 34) as [->|Hc].
    + simpl. rewrite IH. destruct tail; by rewrite <- app_assoc.
    + simpl. apply N.eqb_neq in Hc. rewrite Hc, IH.
      destruct tail; by rewrite <- app_assoc.
Qed.

Lemma read_cell v tail :
  tail = [] ∨ (∃ more, tail = 44 :: more) →
  read_csv AtStart [] (toCsvCell v ++ tail)
  = match tail with
    | [] => [String_cell v]
    | _ :: more => String_cell v :: read_csv AtStart [] more
    end.
Proof.
  intros Htail. unfold toCsvCell.
  destruct (existsb csv_special (String_cell v)) eqn:Hq.
  - rewrite <- !app_assoc. simpl.
    by rewrite (read_quoted [] (String_cell v) tail Htail).
  - assert (Forall (λ c, c ≠ 44 ∧ c ≠ 34) (String_cell v)) as Hall.
    { apply Forall_forall. intros c Hc. apply csv_special_false.
      destruct (csv_special c) eqn:E; [|done].
      rewrite <- Hq. symmetry. apply existsb_exists. exists c.
      split; [by apply list_elem_of_In|done]. }
    rewrite replace_unit_absent
      by (eapply Forall_impl; [exact Hall|]; by intros c [_ ?]).
    destruct (String_cell v) as [|c s].
    + destruct Htail as [->|[more ->]]; done.
    + apply Forall_cons in Hall as [[Hc1 Hc2] Hall]. simpl.
      apply N.eqb_neq in Hc1, Hc2. rewrite Hc1, Hc2.
      rewrite (read_bare [c] s tail);
        [done|by eapply Forall_impl; [exact Hall|]; intros ? [? _]|done].
Qed.

Lemma csv_line_cons v r :
  r ≠ [] → csv_line (v :: r) = toCsvCell v ++ 44 :: csv_line r.
Proof. destruct r; [done|]. by intros _. Qed.

Lemma csv_line_reads_back (r : list (option jsstring)) :
  r ≠ [] → read_csv AtStart [] (csv_line r) = String_cell <$> r.
Proof.
  induction r as [|v r IH]; [done|]. intros _.
  destruct r as [|v' r].
  - unfold csv_line. simpl.
    rewrite <- (app_nil_r (toCsvCell v)). by rewrite read_cell by (by left).
  - rewrite csv_line_cons by done.
    rewrite read_cell by (right; eauto). by rewrite IH.
Qed.

(** X26.  A line written by [exportCsv] reads back, field by field, as the texts
    of its cells: commas, quotes and line breaks inside a cell do not move
    the field boundaries.  In particular the written cell determines the
    text it was written for. *)
Theorem exportCsv_line_reads_back (r : list (option jsstring)) :
  r ≠ [] →
  read_csv AtStart [] (csv_line r) = String_cell <$> r
  ∧ (∀ v v', toCsvCell v = toCsvCell v' → String_cell v = String_cell v').
Proof.
  intros Hr. split; [by apply csv_line_reads_back|].
  intros v v' H.
  pose proof (csv_line_reads_back [v] ltac:(done)) as H1.
  pose proof (csv_line_reads_back [v'] ltac:(done)) as H2.
  unfold csv_line in H1, H2. simpl in H1, H2. rewrite H in H1.
  rewrite H1 in H2. by injection H2.
Qed.

Lemma exportCsv_line_reads_back_witness :
  [Some (js "王小明"); Some (js "休,特休"); None; Some [34; 10; 34]] ≠ []
  ∧ read_csv AtStart []
      (csv_line [Some (js "王小明"); Some (js "休,特休"); None; Some [34; 10; 34]])
    = String_cell
      <$> [Some (js "王小明"); Some (js "休,特休"); None; Some [34; 10; 34]]
  ∧ (∀ v v', toCsvCell v = toCsvCell v' → String_cell v = String_cell v').
Proof.
  assert ([Some (js "王小明"); Some (js "休,特休"); None; Some [34; 10; 34]] ≠ [])
    as Hne by discriminate.
  split; [exact Hne|].
  exact (exportCsv_line_reads_back
           [Some (js "王小明"); Some (js "休,特休"); None; Some [34; 10; 34]]
           Hne).
Defined.

(** ** The attendance list page *)

Lemma statusFromRate_mono (r1 r2 : Q) :
  (r1 <= r2)%Q →
  (statusRank (statusFromRate r1) ≤ statusRank (statusFromRate r2))%Z.
Proof.
  intros Hle. unfold statusFromRate.
  destruct (Qle_bool 0.9 r1) eqn:A1.
  - apply Qle_bool_iff in A1.
    assert (Qle_bool 0.9 r2 = true) as ->
      by (apply Qle_bool_iff; by apply Qle_trans with r1).
    done.
  - destruct (Qle_bool 0.75 r1) eqn:B1.
    + apply Qle_bool_iff in B1.
      assert (Qle_bool 0.75 r2 = true) as B2
        by (apply Qle_bool_iff; by apply Qle_trans with r1).
      destruct (Qle_bool 0.9 r2); [done|]. by rewrite B2.
    + destruct (Qle_bool 0.9 r2); [done|]. by destruct (Qle_bool 0.75 r2).
Qed.

Lemma Qminus_neg (x y : Q) : (x - y < 0 ↔ x < y)%Q.
Proof.
  split; intros H.
  - apply Qplus_lt_l with (z := (- y)%Q). by rewrite Qplus_opp_r.
  - apply Qplus_lt_l with (z := (- y)%Q) in H. by rewrite Qplus_opp_r in H.
Qed.

Lemma Qminus_zero (x y : Q) : (x - y == 0 ↔ x == y)%Q.
Proof.
  split; intros H.
  - apply Qplus_inj_r with (z := (- y)%Q). by rewrite Qplus_opp_r.
  - rewrite H. apply Qplus_opp_r.
Qed.

Section PageProperties.

Variable Cf : N → bool.
Variable localeCompare : jsstring → jsstring → Z.

(** X27.  On items whose summaries the program computed, sorting by status never
    contradicts sorting by rate: the status comparison is negative, zero or
    positive exactly when the rate comparison is, because the status is a
    monotone function of the rate.  Sorting by counts compares the same
    quotient first, so it only orders further what the rate leaves tied. *)
Theorem cmp_status_follows_rate (a b : AttItem) :
  Computed Cf (summary a) → Computed Cf (summary b) →
  (cmp localeCompare key_status a b < 0 ↔ cmp localeCompare key_rate a b < 0)%Q
  ∧ (cmp localeCompare key_status a b == 0
     ↔ cmp localeCompare key_rate a b == 0)%Q
  ∧ (cmp localeCompare key_rate a b < 0 → cmp localeCompare key_counts a b < 0)%Q
  ∧ (cmp localeCompare key_counts a b < 0 →
     cmp localeCompare key_rate a b <= 0)%Q.
Proof.
  intros Ha Hb.
  destruct (Computed_well_formed Cf _ Ha) as (_ & Hra & Hsa).
  destruct (Computed_well_formed Cf _ Hb) as (_ & Hrb & Hsb).
  unfold cmp. rewrite <- Hra, <- Hrb, Hsa, Hsb.
  set (ra := rate (summary a)). set (rb := rate (summary b)).
  rewrite !Qminus_neg, !Qminus_zero.
  assert ((ra <= rb)%Q →
          (statusRank (statusFromRate ra) ≤ statusRank (statusFromRate rb))%Z)
    as Hmono1 by apply statusFromRate_mono.
  assert ((rb <= ra)%Q →
          (statusRank (statusFromRate rb) ≤ statusRank (statusFromRate ra))%Z)
    as Hmono2 by apply statusFromRate_mono.
  split; [|split; [|split]].
  - destruct (Z.eqb_spec (statusRank (statusFromRate ra)
                          - statusRank (statusFromRate rb)) 0) as [E|E];
      cbn [negb]; [by rewrite Qminus_neg|].
    change 0%Q with (inject_Z 0). rewrite <- Zlt_Qlt. split.
    + intros Hlt. apply Qnot_le_lt. intros Hle. apply Hmono2 in Hle. lia.
    + intros Hlt. apply Qlt_le_weak, Hmono1 in Hlt. lia.
  - destruct (Z.eqb_spec (statusRank (statusFromRate ra)
                          - statusRank (statusFromRate rb)) 0) as [E|E];
      cbn [negb]; [by rewrite Qminus_zero|].
    split.
    + intros H. exfalso. apply E.
      unfold Qeq in H. simpl in H. lia.
    + intros H. exfalso. apply E.
      assert (ra <= rb)%Q as H1 by (rewrite H; apply Qle_refl).
      assert (rb <= ra)%Q as H2 by (rewrite H; apply Qle_refl).
      apply Hmono1 in H1. apply Hmono2 in H2. lia.
  - intros Hlt.
    destruct (Qeq_bool (ra - rb) 0) eqn:E; cbn [negb].
    + apply Qeq_bool_iff in E. apply (proj1 (Qminus_zero ra rb)) in E.
      exfalso. exact (Qlt_not_eq _ _ Hlt E).
    + by apply Qminus_neg.
  - destruct (Qeq_bool (ra - rb) 0) eqn:E; cbn [negb].
    + apply Qeq_bool_iff in E. intros _. apply Qle_lteq. by right.
    + apply Qlt_le_weak.
Qed.

End PageProperties.

Lemma makeRow_item_computed :
  Computed Cf_unicode (makeRow_attendance 26).
Proof. apply computed_makeRow. Defined.

Lemma cmp_status_follows_rate_witness :
  let a := {| item_id := js "att_a"; item_name := js "a";
              summary := sample_summary |} in
  let b := {| item_id := js "att_b"; item_name := js "b";
              summary := makeRow_attendance 26 |} in
  let lc := λ _ _ : jsstring, 0%Z in
  Computed Cf_unicode (summary a) ∧ Computed Cf_unicode (summary b)
  ∧ ((cmp lc key_status a b < 0 ↔ cmp lc key_rate a b < 0)%Q
     ∧ (cmp lc key_status a b == 0 ↔ cmp lc key_rate a b == 0)%Q
     ∧ (cmp lc key_rate a b < 0 → cmp lc key_counts a b < 0)%Q
     ∧ (cmp lc key_counts a b < 0 → cmp lc key_rate a b <= 0)%Q).
Proof.
  intros a b lc.
  split; [exact sample_summary_computed|].
  split; [exact makeRow_item_computed|].
  exact (cmp_status_follows_rate Cf_unicode lc a b sample_summary_computed
           makeRow_item_computed).
Defined.

(** ** When no attendance is computed *)

Section EdgeProperties.

Variable Cf : N → bool.




End EdgeProperties.


